(** * Intent classification and entity extraction (src/bot/nlp_processor.py)

    A shallow embedding of [NLPProcessor]: keyword extraction, the roster
    index, the discipline extractors, the [categorize_query] decision chain
    and the [process_query] dispatcher, followed by the properties the
    specification states about them.

    Conventions.
    - A Python [str] is a list of Unicode code points ([pystr]); [len] is
      [length], [a in b] is [contains a b].
    - The Unicode character database and the [re] character classes are
      gathered in a record [chardb]; [str.lower] and [str.upper] apply the
      per-character full case mapping (the context rule for a final Greek
      sigma is outside the model).
    - [pymorphy3] is an external library: the analyser is a function
      [morph : pystr -> option pystr], where [None] stands for a raised
      exception inside [morph.parse(word)[0].normal_form].
    - [self.teacher_surnames] is a Python dict: an association list in
      insertion order, whose assignment keeps the position of an existing key.
    - Iterating a Python [set] of strings has no fixed order; the one loop
      whose result depends on it takes the order as [disc_iter]. *)

From Stdlib Require Import String Ascii DecimalString.
From Stdlib Require Import List NArith ZArith Bool Lia Permutation.
Import ListNotations.
Open Scope N_scope.

(** ** Python strings *)

Definition char := N.
Definition pystr := list char.

Fixpoint bytes_of (s : string) : list N :=
  match s with
  | EmptyString => []
  | String a s' => N_of_ascii a :: bytes_of s'
  end.

(** Source literals are UTF-8; [u] reads one as code points (sequences of
    one, two and three bytes, which covers every literal of the module that
    is modelled). *)
Fixpoint utf8_decode (bs : list N) : pystr :=
  match bs with
  | [] => []
  | b0 :: r0 =>
    if b0 <? 128 then b0 :: utf8_decode r0
    else match r0 with
      | [] => []
      | b1 :: r1 =>
        if b0 <? 224 then ((b0 - 192) * 64 + (b1 - 128)) :: utf8_decode r1
        else match r1 with
          | [] => []
          | b2 :: r2 =>
            ((b0 - 224) * 4096 + (b1 - 128) * 64 + (b2 - 128)) :: utf8_decode r2
          end
      end
  end.

Definition u (s : string) : pystr := utf8_decode (bytes_of s).

Fixpoint str_eqb (a b : pystr) : bool :=
  match a, b with
  | [], [] => true
  | x :: a', y :: b' => (x =? y) && str_eqb a' b'
  | _, _ => false
  end.

(** [s.startswith(p)] *)
Fixpoint startswith (p s : pystr) : bool :=
  match p, s with
  | [], _ => true
  | x :: p', y :: s' => (x =? y) && startswith p' s'
  | _ :: _, [] => false
  end.

(** [p in s] for two strings *)
Fixpoint contains (p s : pystr) : bool :=
  startswith p s ||
  match s with
  | [] => false
  | _ :: s' => contains p s'
  end.

(** [w in xs] for a string and a set or list of strings *)
Definition mem (w : pystr) (xs : list pystr) : bool := existsb (str_eqb w) xs.

Definition SPACE : char := 32.

(** [sep.join(ws)] with [sep = " "] *)
Fixpoint join_sp (ws : list pystr) : pystr :=
  match ws with
  | [] => []
  | [w] => w
  | w :: ws' => w ++ SPACE :: join_sp ws'
  end.

(** [s.replace(' ', '')] *)
Definition remove_spaces (s : pystr) : pystr :=
  filter (fun c => negb (c =? SPACE)) s.

(** ** Dynamic values and exceptions *)

Inductive pyval :=
| VStr (s : pystr)
| VInt (z : Z)
| VNone.

Inductive pyerr := AttributeError | TypeError | RuntimeError.

Inductive exc (A : Type) :=
| Ok (a : A)
| Raise (e : pyerr).
Arguments Ok {A} a.
Arguments Raise {A} e.

Definition bind {A B} (m : exc A) (k : A -> exc B) : exc B :=
  match m with
  | Ok a => k a
  | Raise e => Raise e
  end.

Notation "x <- m ;; k" := (bind m (fun x => k))
  (at level 61, m at next level, right associativity).

(** [try: body  except Exception: handler] *)
Definition try_except {A} (body : exc A) (handler : A) : A :=
  match body with
  | Ok a => a
  | Raise _ => handler
  end.

Definition ascii_str (s : string) : pystr := bytes_of s.

(** [str(v)] and the [{v}] of an f-string, for the values a database row
    holds; on these it cannot raise. *)
Definition py_str (v : pyval) : pystr :=
  match v with
  | VStr s => s
  | VInt z => ascii_str (NilZero.string_of_int (Z.to_int z))
  | VNone => u "None"
  end.

(** ** The character database *)

Record chardb := {
  tolower : char -> pystr;          (* full lower-case mapping *)
  toupper : char -> pystr;          (* full upper-case mapping *)
  totitle : char -> pystr;          (* full title-case mapping *)
  isspace : char -> bool;           (* str.isspace, regex \s, str.split *)
  isword : char -> bool;            (* regex \w : alphanumeric or '_' *)
  isdecimal : char -> bool;         (* regex \d *)
  isalpha : char -> bool;           (* str.isalpha *)
  isupper : char -> bool;           (* str.isupper of one character *)
  ci_eq : char -> char -> bool      (* re.IGNORECASE: literal, then char *)
}.

(** A database for ASCII and the Russian alphabet; every other code point
    is caseless and is neither a letter nor a digit. *)
Definition ru_lower1 (c : char) : char :=
  if (65 <=? c) && (c <=? 90) then c + 32
  else if (1040 <=? c) && (c <=? 1071) then c + 32
  else if (1024 <=? c) && (c <=? 1039) then c + 80
  else c.

Definition ru_upper1 (c : char) : char :=
  if (97 <=? c) && (c <=? 122) then c - 32
  else if (1072 <=? c) && (c <=? 1103) then c - 32
  else if (1104 <=? c) && (c <=? 1119) then c - 80
  else c.

Definition ru_isspace (c : char) : bool :=
  ((9 <=? c) && (c <=? 13)) || ((28 <=? c) && (c <=? 32)) ||
  (c =? 133) || (c =? 160) || (c =? 5760) ||
  ((8192 <=? c) && (c <=? 8202)) || (c =? 8232) || (c =? 8233) ||
  (c =? 8239) || (c =? 8287) || (c =? 12288).

Definition ru_isdecimal (c : char) : bool := (48 <=? c) && (c <=? 57).

Definition ru_isalpha (c : char) : bool :=
  ((65 <=? c) && (c <=? 90)) || ((97 <=? c) && (c <=? 122)) ||
  ((1024 <=? c) && (c <=? 1119)).

Definition ru_isupper (c : char) : bool :=
  ((65 <=? c) && (c <=? 90)) || ((1024 <=? c) && (c <=? 1071)).

Definition ru_db : chardb := {|
  tolower := fun c => [ru_lower1 c];
  toupper := fun c => [ru_upper1 c];
  totitle := fun c => [ru_upper1 c];
  isspace := ru_isspace;
  isword := fun c => ru_isalpha c || ru_isdecimal c || (c =? 95);
  isdecimal := ru_isdecimal;
  isalpha := ru_isalpha;
  isupper := ru_isupper;
  ci_eq := fun l c => ru_lower1 c =? ru_lower1 l
|}.

(** Two analysers used in examples: one whose every call raises (so each
    word is kept as typed), and one given by a finite dictionary. *)
Definition morph_fail : pystr -> option pystr := fun _ => None.

Fixpoint assoc (k : pystr) (d : list (pystr * pystr)) : option pystr :=
  match d with
  | [] => None
  | (k', v) :: d' => if str_eqb k k' then Some v else assoc k d'
  end.

Definition morph_dict (d : list (pystr * pystr)) : pystr -> option pystr :=
  fun w => match assoc w d with Some n => Some n | None => Some w end.

(** ** Regular expressions

    The patterns of the module are sequences of single-character classes,
    each taken once, with [*] or with [+]; an item may belong to the
    capture group. *)

Inductive atom :=
| Lit (c : char)        (* a literal character *)
| LitI (c : char)       (* a literal character under re.IGNORECASE *)
| ClsSpace              (* \s *)
| ClsDigit              (* \d *)
| ClsWord.              (* \w, [\w] *)

Inductive quant := QOne | QStar | QPlus.

Record item := { it_atom : atom; it_quant : quant; it_group : bool }.

Definition one (a : atom) : item := {| it_atom := a; it_quant := QOne; it_group := false |}.
Definition star (a : atom) : item := {| it_atom := a; it_quant := QStar; it_group := false |}.
Definition group_plus (a : atom) : item := {| it_atom := a; it_quant := QPlus; it_group := true |}.

Definition regex := list item.

(** The text matched by the whole pattern and by its group 1. *)
Definition mres := (pystr * pystr)%type.

Definition push (g : bool) (c : char) (m : mres) : mres :=
  (c :: fst m, if g then c :: snd m else snd m).

Definition literal (s : pystr) : regex := map (fun c => one (Lit c)) s.

(** ** Static tables of [NLPProcessor.__init__] *)

Definition teacher : pystr := u "teacher".
Definition discipline : pystr := u "discipline".
Definition document : pystr := u "document".
Definition navigation : pystr := u "navigation".
Definition event : pystr := u "event".
Definition sport : pystr := u "sport".
Definition dormitory : pystr := u "dormitory".
Definition unknown : pystr := u "unknown".

Definition teacher_kw : list pystr := map u
  ["преподаватель"; "учитель"; "педагог"; "преподает"; "ведет"; "пара"; "пары";
   "урок"; "уроки"; "кто"; "такая"; "такой"; "какие"; "предметы"; "покажи";
   "расскажи"; "информация"; "список"; "о преподавателях"; "о учителях";
   "покажи"; "учат"; "преподаватели"; "найти"; "контакты"; "препод"; "ведёт";
   "учит"; "фамилия"; "препода"]%string.

Definition discipline_kw : list pystr := map u
  ["предмет"; "дисциплина"; "математика"; "информатика"; "программирование";
   "экономика"; "бухучет"; "бухгалтерия"; "физкультура"; "английский";
   "история"; "физика"; "право"; "литература"; "русский"; "алгебра";
   "геометрия"; "химия"; "биология"; "курс"; "лекция"; "семинар"; "практика";
   "лаба"; "преподает"; "ведет"; "изучает"; "изучаем"]%string.

Definition document_kw : list pystr := map u
  ["справка"; "документ"; "заявление"; "получить"; "оформить"; "бумага";
   "справки"; "документы"; "бумаги"; "заполнить"; "подать"; "справку"]%string.

Definition navigation_kw : list pystr := map u
  ["где"; "найти"; "находится"; "расположение"; "аудитория"; "кабинет"; "этаж";
   "корпус"; "столовая"; "библиотека"; "буфет"; "расположена"; "аудитории";
   "находятся"; "поиск"; "как пройти"; "дорога"; "путь"; "актовый"; "зал";
   "лаборатория"; "медпункт"; "деканат"]%string.

Definition event_kw : list pystr := map u
  ["мероприятие"; "событие"; "праздник"; "концерт"; "выступление"; "когда";
   "какие"; "фестиваль"; "встреча"; "семинар"; "конференция"; "анонс"; "скоро";
   "мероприятия"; "афиша"]%string.

Definition sport_kw : list pystr := map u
  ["секция"; "спорт"; "тренировка"; "занятие"; "тренер"; "игра"; "какие";
   "есть"; "секции"; "занятия"; "спортивные"; "спортзал"; "физкультура";
   "футбол"; "волейбол"; "баскетбол"; "теннис"; "тренер"; "физрук";
   "спортивный"; "заниматься"]%string.

Definition dormitory_kw : list pystr := map u
  ["общежитие"; "общага"; "комната"; "проживание"; "заселение"; "комендант";
   "жить"; "поселиться"; "квартира"; "общежития"; "заселиться"; "условия";
   "плата"; "снять"]%string.

(** [self.categories], in the insertion order of the dict literal. *)
Definition categories : list (pystr * list pystr) :=
  [(teacher, teacher_kw); (discipline, discipline_kw); (document, document_kw);
   (navigation, navigation_kw); (event, event_kw); (sport, sport_kw);
   (dormitory, dormitory_kw)].

Definition stop_words : list pystr := map u
  ["и"; "в"; "во"; "не"; "что"; "он"; "на"; "я"; "с"; "со"; "как"; "а"; "то";
   "все"; "она"; "так"; "его"; "но"; "да"; "ты"; "к"; "у"; "же"; "вы"; "за";
   "бы"; "по"; "только"; "ее"; "мне"; "было"; "вот"; "от"; "меня"; "еще";
   "нет"; "о"; "из"; "ему"; "такая"; "это"; "эта"; "где"; "какая"]%string.

(** The closed set of categories of the specification. *)
Definition CATEGORIES : list pystr :=
  [teacher; discipline; document; navigation; event; sport; dormitory; unknown].

Definition common_disciplines : list pystr := map u
  ["математика"; "информатика"; "русский язык"; "литература"; "история";
   "физика"; "химия"; "биология"; "экономика"; "право"; "бухгалтерия";
   "программирование"; "английский язык"; "философия"; "психология";
   "статистика"; "культура"; "менеджмент"; "маркетинг"; "социология";
   "политология"; "экология"]%string.

(** r'мдк\s*\d{2}\.\d{2}' with re.IGNORECASE *)
Definition mdk_pattern : regex :=
  [one (LitI 1084); one (LitI 1076); one (LitI 1082); star ClsSpace;
   one ClsDigit; one ClsDigit; one (Lit 46); one ClsDigit; one ClsDigit].

(** The six [teacher_patterns]: a literal phrase, then the group ([\w]+). *)
Definition teacher_patterns : list regex :=
  map (fun s => literal (u s) ++ [group_plus ClsWord])
    ["кто такая "; "кто такой "; "преподаватель "; "о преподавателе ";
     "где найти "; "контакты "]%string.

Definition locative_markers : list pystr := map u
  ["где"; "как найти"; "как пройти"; "местоположение"; "расположение"]%string.

Definition other_places : list pystr := map u
  ["деканат"; "учебная часть"; "студсовет"; "бухгалтерия"; "актовый зал";
   "спортзал"; "медпункт"]%string.

Definition teacher_nouns : list pystr := map u
  ["преподаватель"; "учитель"; "педагог"]%string.

Definition common_words : list pystr := map u
  ["где"; "как"; "что"; "когда"; "почему"; "кто"; "находиться";
   "расположен"]%string.

Definition teaching_markers : list pystr := map u ["ведет"; "преподает"; "ведёт"]%string.

Definition CLARIFY : pystr := u "Пожалуйста, сформулируйте вопрос подробнее.".
Definition NOT_UNDERSTOOD : pystr :=
  u "Извините, я не смог понять ваш вопрос. Попробуйте переформулировать или выберите пункт из меню.".
Definition PROCESSING_ERROR : pystr :=
  u "Произошла ошибка при обработке запроса. Пожалуйста, попробуйте позже.".

(** ** The roster index: [self.teacher_surnames] *)

Definition roster := list (pystr * pystr).

(** [d[k] = v] on a dict kept in insertion order *)
Fixpoint dict_set (k v : pystr) (d : roster) : roster :=
  match d with
  | [] => [(k, v)]
  | (k', v') :: d' =>
    if str_eqb k k' then (k', v) :: d' else (k', v') :: dict_set k v d'
  end.

(** An element of [teachers_list]: a list or tuple of fields, or anything
    else. *)
Inductive record :=
| RSeq (fields : list pyval)
| RScalar (v : pyval).

Inductive level := DEBUG | INFO | WARNING | ERROR.

Inductive message :=
| EmptyTeachersList
| InvalidTeacherType (t : record)
| InsufficientFields (t : record)
| AddedSurname (surname full_name : pystr)
| Initialized (entries : nat).

Definition log := list (level * message).

Fixpoint find_map {A B} (f : A -> option B) (l : list A) : option B :=
  match l with
  | [] => None
  | x :: l' => match f x with Some y => Some y | None => find_map f l' end
  end.

Definition result := (pystr * list pystr)%type.

(** [_process_*_query(db_manager, ...)] for the data store at hand: the
    formatters are outside the classifier and are taken as given. *)
Record responders := {
  process_teacher_query : list pystr -> exc pystr;
  process_discipline_query : list pystr -> exc pystr;
  process_sport_query : exc pystr;
  process_document_query : exc pystr;
  process_navigation_query : list pystr -> exc pystr;
  process_event_query : exc pystr;
  process_dormitory_query : exc pystr
}.

Section Processor.

Variable db : chardb.
Variable morph : pystr -> option pystr.
Variable disc_iter : list pystr.
Variable replies : responders.

Definition lower (s : pystr) : pystr := flat_map (tolower db) s.
Definition upper (s : pystr) : pystr := flat_map (toupper db) s.

(** [s.capitalize()] *)
Definition capitalize (s : pystr) : pystr :=
  match s with
  | [] => []
  | c :: r => totitle db c ++ lower r
  end.

(** [s.isalpha()] *)
Definition str_isalpha (s : pystr) : bool :=
  match s with
  | [] => false
  | _ => forallb (isalpha db) s
  end.

(** [s[0].isupper()], for a non-empty [s] *)
Definition head_isupper (s : pystr) : bool :=
  match s with
  | [] => false
  | c :: _ => isupper db c
  end.

(** *** Matching *)

Definition accepts (a : atom) (c : char) : bool :=
  match a with
  | Lit l => c =? l
  | LitI l => ci_eq db l c
  | ClsSpace => isspace db c
  | ClsDigit => isdecimal db c
  | ClsWord => isword db c
  end.

(** A greedy repetition of a character class followed by the rest [k] of
    the pattern: the longest run is tried first, then shorter ones. *)
Fixpoint greedy (p : char -> bool) (g : bool) (k : pystr -> option mres)
    (s : pystr) : option mres :=
  match s with
  | [] => k []
  | c :: s' =>
    if p c then
      match greedy p g k s' with
      | Some m => Some (push g c m)
      | None => k s
      end
    else k s
  end.

(** [pattern.match(s)]: a match that starts at the first character. *)
Fixpoint rmatch (r : regex) (s : pystr) : option mres :=
  match r with
  | [] => Some ([], [])
  | it :: r' =>
    let p := accepts (it_atom it) in
    let g := it_group it in
    match it_quant it with
    | QOne =>
      match s with
      | [] => None
      | c :: s' => if p c then option_map (push g c) (rmatch r' s') else None
      end
    | QStar => greedy p g (rmatch r') s
    | QPlus =>
      match s with
      | [] => None
      | c :: s' =>
        if p c then option_map (push g c) (greedy p g (rmatch r') s') else None
      end
    end
  end.

(** [re.search(pattern, s)]: the leftmost start that matches. *)
Fixpoint search (r : regex) (s : pystr) : option mres :=
  match rmatch r s with
  | Some m => Some m
  | None =>
    match s with
    | [] => None
    | _ :: s' => search r s'
    end
  end.

(** *** set_teacher_surnames *)

Definition field (i : nat) (fs : list pyval) : pyval := nth i fs VNone.

Definition surname_of (fs : list pyval) : pystr := lower (py_str (field 1 fs)).

Definition full_name_of (fs : list pyval) : pystr :=
  py_str (field 1 fs) ++ SPACE :: py_str (field 2 fs) ++ SPACE :: py_str (field 3 fs).

(** One turn of the loop over [teachers_list]. *)
Definition add_teacher (st : roster * log) (t : record) : roster * log :=
  let (d, l) := st in
  match t with
  | RScalar _ => (d, l ++ [(WARNING, InvalidTeacherType t)])
  | RSeq fs =>
    if (length fs <? 4)%nat then (d, l ++ [(WARNING, InsufficientFields t)])
    else
      let surname := surname_of fs in
      let full_name := full_name_of fs in
      (dict_set surname full_name d, l ++ [(DEBUG, AddedSurname surname full_name)])
  end.

(** The new value of [self.teacher_surnames] and the lines logged. *)
Definition set_teacher_surnames (teachers_list : list record) : roster * log :=
  match teachers_list with
  | [] => ([], [(WARNING, EmptyTeachersList)])
  | _ =>
    let (d, l) := fold_left add_teacher teachers_list ([], []) in
    (d, l ++ [(INFO, Initialized (length d))])
  end.

(** *** normalize_word, extract_keywords *)

Definition normalize_word (word : pystr) : pystr :=
  match morph word with
  | Some normal_form => normal_form
  | None => word
  end.

(** [re.sub(r'[^\w\s]', ' ', s)] *)
Definition strip_punct (s : pystr) : pystr :=
  map (fun c => if isword db c || isspace db c then c else SPACE) s.

(** [s.split()]; [acc] holds the current word, last character first. *)
Fixpoint split_go (acc : pystr) (s : pystr) : list pystr :=
  match s with
  | [] => match acc with [] => [] | _ => [rev acc] end
  | c :: s' =>
    if isspace db c then
      match acc with
      | [] => split_go [] s'
      | _ => rev acc :: split_go [] s'
      end
    else split_go (c :: acc) s'
  end.

Definition split (s : pystr) : list pystr := split_go [] s.

Definition extract_keywords (text : pystr) : list pystr :=
  let text := strip_punct (lower text) in
  let words := split text in
  let normalized_words := map normalize_word words in
  filter (fun word => negb (mem word stop_words)) normalized_words.

(** *** find_discipline_in_text *)

(** Lines 116-121: the teaching-context shortcut. *)
Definition teaching_shortcut (text : pystr) : option pystr :=
  if existsb (fun m => contains m (lower text)) teaching_markers then
    find_map (fun word =>
                option_map capitalize (find (fun d => contains d word) disc_iter))
             (extract_keywords (lower text))
  else None.

(** Lines 123-130: the code of a module, "МДК XX.XX". *)
Definition find_mdk (text : pystr) : option pystr :=
  option_map (fun m => remove_spaces (upper (fst m))) (search mdk_pattern text).

(** Lines 139-143 *)
Definition find_common_full (text : pystr) : option pystr :=
  option_map capitalize
    (find (fun d => contains d (lower text)) common_disciplines).

(** Lines 145-151 *)
Definition find_common_partial (text : pystr) : option pystr :=
  find_map (fun d =>
    if (5 <? length d)%nat then
      option_map (fun _ => capitalize d)
        (find (fun word => (5 <? length word)%nat
                           && (contains d word || contains word d))
              (extract_keywords (lower text)))
    else None) common_disciplines.

Definition orelse {A} (a : option A) (b : option A) : option A :=
  match a with
  | Some x => Some x
  | None => b
  end.

Definition find_discipline_in_text (text : pystr) : option pystr :=
  orelse (teaching_shortcut text)
    (orelse (find_mdk text)
       (orelse (find_common_full text) (find_common_partial text))).

(** *** categorize_query *)

(** Lines 170-186: the groups captured by the teacher patterns, appended
    to the keywords. *)
Definition pattern_names (text_lower : pystr) : list pystr :=
  flat_map (fun pattern =>
              match search pattern text_lower with
              | Some m => [snd m]
              | None => []
              end) teacher_patterns.

(** The list [keywords] once the loop over the patterns has run. *)
Definition keywords_of (text_lower : pystr) : list pystr :=
  extract_keywords text_lower ++ pattern_names text_lower.

(** Lines 189-193: the first word that some indexed surname is part of. *)
Definition roster_hit (surnames : roster) (word : pystr) : option pystr :=
  option_map snd (find (fun kv => contains (fst kv) (lower word)) surnames).

Definition step_roster (surnames : roster) (keywords : list pystr) : option result :=
  option_map (fun full_name => (teacher, [full_name]))
    (find_map (roster_hit surnames) keywords).

(** Lines 199-226 *)
Definition step_navigation (text_lower : pystr) (keywords : list pystr) : option result :=
  if existsb (fun m => contains m text_lower) locative_markers then
    if contains (u "библиотек") text_lower then
      Some (navigation, [u "библиотека"])
    else if contains (u "столов") text_lower || contains (u "буфет") text_lower
            || contains (u "поесть") text_lower || contains (u "еда") text_lower then
      Some (navigation, [u "столовая"])
    else if contains (u "vr") text_lower || contains (u "лаборатор") text_lower then
      Some (navigation, [u "лаборатория"])
    else
      match find (fun loc => contains loc text_lower) other_places with
      | Some loc => Some (navigation, [loc])
      | None => Some (navigation, keywords)
      end
  else None.

Definition no_common_word (word : pystr) : bool :=
  negb (existsb (fun common_word => contains common_word (lower word)) common_words).

(** Lines 229-237 *)
Definition step_teacher_noun (text_lower : pystr) (keywords : list pystr) : option result :=
  if existsb (fun word => contains word text_lower) teacher_nouns then
    option_map (fun word => (teacher, [word]))
      (find (fun word => (3 <? length word)%nat && str_isalpha word
                         && no_common_word word) keywords)
  else None.

(** Lines 240-245 *)
Definition step_capitalized (keywords : list pystr) : option result :=
  option_map (fun word => (teacher, [word]))
    (find (fun word => (3 <? length word)%nat && str_isalpha word
                       && head_isupper word && no_common_word word) keywords).

(** Lines 248-251; [if discipline:] holds for a non-empty string. *)
Definition step_discipline (text_lower : pystr) : option result :=
  match find_discipline_in_text text_lower with
  | Some (c :: d) => Some (discipline, [c :: d])
  | _ => None
  end.

(** Lines 254-260 *)
Definition step_phrases (text_lower : pystr) (keywords : list pystr) : option result :=
  if contains (u "преподаватели") text_lower
     || contains (u "о преподавателях") text_lower
     || contains (u "список преподавателей") text_lower then
    Some (teacher, keywords)
  else if contains (u "столовая") text_lower || contains (u "буфет") text_lower
          || contains (u "поесть") text_lower then
    Some (navigation, u "столовая" :: keywords)
  else None.

(** Lines 263-266 *)
Definition step_exact (keywords : list pystr) : option result :=
  option_map (fun cat => (fst cat, keywords))
    (find (fun cat => existsb (fun keyword => mem keyword (snd cat)) keywords)
          categories).

Definition fuzzy (keyword category_word : pystr) : bool :=
  ((3 <? length keyword)%nat && contains keyword category_word)
  || ((3 <? length category_word)%nat && contains category_word keyword).

(** Lines 269-274 *)
Definition step_fuzzy (keywords : list pystr) : option result :=
  option_map (fun cat => (fst cat, keywords))
    (find (fun cat => existsb (fun keyword => existsb (fuzzy keyword) (snd cat))
                              keywords)
          categories).

(** [text.lower()], [text.startswith(...)]: only a [str] has the method. *)
Definition as_str (v : pyval) : exc pystr :=
  match v with
  | VStr s => Ok s
  | _ => Raise AttributeError
  end.

(** The body of the [try] of [categorize_query]. *)
Definition categorize_body (surnames : roster) (text : pyval) : exc result :=
  s <- as_str text ;;
  let text_lower := lower s in
  let keywords := keywords_of text_lower in
  Ok (match
        orelse (step_roster surnames keywords)
        (orelse (step_navigation text_lower keywords)
        (orelse (step_teacher_noun text_lower keywords)
        (orelse (step_capitalized keywords)
        (orelse (step_discipline text_lower)
        (orelse (step_phrases text_lower keywords)
        (orelse (step_exact keywords)
                (step_fuzzy keywords)))))))
      with
      | Some r => r
      | None => (unknown, keywords)
      end).

Definition categorize_query (surnames : roster) (text : pyval) : result :=
  try_except (categorize_body surnames text) (unknown, []).

(** *** process_query *)

Definition dispatch (category : pystr) (keywords : list pystr) : exc pystr :=
  if str_eqb category teacher then process_teacher_query replies keywords
  else if str_eqb category discipline then process_discipline_query replies keywords
  else if str_eqb category sport then process_sport_query replies
  else if str_eqb category document then process_document_query replies
  else if str_eqb category navigation then process_navigation_query replies keywords
  else if str_eqb category event then process_event_query replies
  else if str_eqb category dormitory then process_dormitory_query replies
  else Ok NOT_UNDERSTOOD.

Definition process_query (surnames : roster) (text : pyval) : option pystr :=
  try_except
    (s <- as_str text ;;
     if startswith (u "/") s then Ok None
     else
       let (category, keywords) := categorize_query surnames text in
       match keywords with
       | [] => Ok (Some CLARIFY)
       | _ => r <- dispatch category keywords ;; Ok (Some r)
       end)
    (Some PROCESSING_ERROR).

End Processor.

(** ** Vocabulary of the statements *)

(** What the proofs need of the character database.  Each clause holds of
    the Unicode data that CPython ships. *)
Record chardb_ok (db : chardb) : Prop := {
  (* a character produced by lower-casing is its own lower case *)
  lower_fixed : forall c c', In c' (tolower db c) -> tolower db c' = [c'];
  title_nonempty : forall c, totitle db c <> [];
  space_not_word : forall c, isspace db c = true -> isword db c = false;
  decimal_is_word : forall c, isdecimal db c = true -> isword db c = true;
  space_is_space : isspace db SPACE = true;
  (* ASCII below 'A' (space, digits, punctuation) has no case *)
  ascii_caseless : forall c, c < 65 -> tolower db c = [c] /\ toupper db c = [c];
  ascii_digit : forall c, 48 <= c <= 57 -> isdecimal db c = true;
  (* the letters of the pattern "мдк": each matches itself, and whatever
     matches one of them has its capital as upper case *)
  mdk_letters : forall l, In l [1084; 1076; 1082] ->
    ci_eq db l l = true /\
    forall c, ci_eq db l c = true -> toupper db c = [l - 32]
}.

(** The set iterated by line 118 is [self.categories['discipline']]. *)
Definition iterates_disciplines (disc_iter : list pystr) : Prop :=
  Permutation disc_iter discipline_kw.

(** The query gets past the steps that come before the discipline step:
    no roster surname, no locative marker, no name after a teacher noun, no
    capitalized word. *)
Definition reaches_discipline_step (db : chardb) (morph : pystr -> option pystr)
    (surnames : roster) (text : pystr) : Prop :=
  let text_lower := lower db text in
  let keywords := keywords_of db morph text_lower in
  step_roster db surnames keywords = None
  /\ step_navigation text_lower keywords = None
  /\ step_teacher_noun db text_lower keywords = None
  /\ step_capitalized db keywords = None.

(** The query gets as far as the fuzzy step (step 9). *)
Definition reaches_fuzzy_step (db : chardb) (morph : pystr -> option pystr)
    (disc_iter : list pystr) (surnames : roster) (text : pystr) : Prop :=
  let text_lower := lower db text in
  let keywords := keywords_of db morph text_lower in
  reaches_discipline_step db morph surnames text
  /\ step_discipline db morph disc_iter text_lower = None
  /\ step_phrases text_lower keywords = None
  /\ step_exact keywords = None.

(** A keyword and a trigger word share four characters or more: one of
    them, at least four characters long, is part of the other. *)
Definition shares4 (token category_word : pystr) : bool :=
  ((4 <=? length token)%nat && contains token category_word)
  || ((4 <=? length category_word)%nat && contains category_word token).

Definition category_shares4 (keywords : list pystr) (cat : pystr * list pystr)
    : bool :=
  existsb (fun token => existsb (shares4 token) (snd cat)) keywords.

(** Whichever of the two is part of the other has three characters at
    most. *)
Definition overlap_at_most_3 (token category_word : pystr) : bool :=
  (negb (contains token category_word) || (length token <=? 3)%nat)
  && (negb (contains category_word token) || (length category_word <=? 3)%nat).

(** The shape looked for by lines 123-125 ("МДК XX.XX"): the letters м, д,
    к in any case, white space or none, two digits, a full stop, two
    digits. *)
Definition mdk_code (db : chardb) (m : pystr) : Prop :=
  exists l1 l2 l3 ws d1 d2 d3 d4,
    m = l1 :: l2 :: l3 :: ws ++ [d1; d2; 46; d3; d4]
    /\ ci_eq db 1084 l1 = true /\ ci_eq db 1076 l2 = true
    /\ ci_eq db 1082 l3 = true
    /\ forallb (isspace db) ws = true
    /\ isdecimal db d1 = true /\ isdecimal db d2 = true
    /\ isdecimal db d3 = true /\ isdecimal db d4 = true.

(** A lower-case word: not empty, made of word characters, unchanged by
    [str.lower]. *)
Definition wordlike (db : chardb) (w : pystr) : Prop :=
  w <> [] /\ forallb (isword db) w = true /\ lower db w = w.

(** A keyword that a second pass of [extract_keywords] leaves as it is: a
    lower-case word that the analyser maps to itself. *)
Definition fixed_keyword (db : chardb) (morph : pystr -> option pystr)
    (t : pystr) : Prop :=
  wordlike db t /\ normalize_word morph t = t.

(** A record that line 68 lets through: a list or tuple of four fields or
    more (identifier, surname, given name, patronymic, ...). *)
Definition indexable (t : record) : bool :=
  match t with
  | RSeq fs => (4 <=? length fs)%nat
  | RScalar _ => false
  end.

(** The records named by the warnings of a log. *)
Fixpoint skipped_of (l : log) : list record :=
  match l with
  | [] => []
  | (WARNING, InsufficientFields t) :: l' => t :: skipped_of l'
  | (WARNING, InvalidTeacherType t) :: l' => t :: skipped_of l'
  | _ :: l' => skipped_of l'
  end.

(** The lower-cased surnames of the records that line 68 lets through, in
    the order of the input, with their repetitions. *)
Definition indexed_surnames (db : chardb) (teachers_list : list record)
    : list pystr :=
  flat_map (fun t => match t with
                     | RSeq fs => if indexable t then [surname_of db fs] else []
                     | RScalar _ => []
                     end) teachers_list.

(** The elements of [ks] without repetition, each at the place where it
    comes first; [seen] holds the elements already met. *)
Fixpoint first_occurrences_from (seen ks : list pystr) : list pystr :=
  match ks with
  | [] => []
  | k :: ks' =>
    if mem k seen then first_occurrences_from seen ks'
    else k :: first_occurrences_from (k :: seen) ks'
  end.

Definition first_occurrences (ks : list pystr) : list pystr :=
  first_occurrences_from [] ks.

(** The fields of the last record of [teachers_list] that is indexed under
    the key [k]. *)
Fixpoint last_record (db : chardb) (k : pystr) (teachers_list : list record)
    : option (list pyval) :=
  match teachers_list with
  | [] => None
  | t :: rest =>
    match last_record db k rest with
    | Some fs => Some fs
    | None =>
      match t with
      | RSeq fs =>
        if indexable t && str_eqb (surname_of db fs) k then Some fs else None
      | RScalar _ => None
      end
    end
  end.

(** ** Data of the examples *)

Definition demo_teachers : list record :=
  [RSeq [VInt 1; VStr (u "Иванов"); VStr (u "Иван"); VStr (u "Иванович")];
   RSeq [VInt 2; VStr (u "Петров"); VStr (u "Пётр"); VNone];
   RSeq [VStr (u "Сидоров"); VStr (u "Семён"); VStr (u "Ильич")];
   RSeq [VInt 4; VStr (u "ИВАНОВ"); VStr (u "Олег"); VStr (u "Ильич")]].

Definition demo_roster : roster := fst (set_teacher_surnames ru_db demo_teachers).

(** Two namesakes and, between them, a colleague whose surname holds
    theirs. *)
Definition demo_namesakes : list record :=
  [RSeq [VInt 1; VStr (u "Иванов"); VStr (u "Иван"); VStr (u "Иванович")];
   RSeq [VInt 2; VStr (u "Иванова"); VStr (u "Анна"); VStr (u "Петровна")];
   RSeq [VInt 3; VStr (u "ИВАНОВ"); VStr (u "Олег"); VStr (u "Ильич")]].

(** An analyser that knows two word forms and gives every other word
    back. *)
Definition morph_demo : pystr -> option pystr :=
  morph_dict [(u "ведет", u "вести"); (u "математику", u "математика")].

(** Two word forms whose normal form is not a normal form itself: the
    analyser reads "залы" as a form of "зала", and "зала" as a form of
    "зал". *)
Definition morph_zal : pystr -> option pystr :=
  morph_dict [(u "залы", u "зала"); (u "зала", u "зал")].

Definition demo_replies : responders := {|
  process_teacher_query := fun _ => Ok (u "teacher answer");
  process_discipline_query := fun _ => Ok (u "discipline answer");
  process_sport_query := Ok (u "sport answer");
  process_document_query := Ok (u "document answer");
  process_navigation_query := fun _ => Ok (u "navigation answer");
  process_event_query := Ok (u "event answer");
  process_dormitory_query := Ok (u "dormitory answer")
|}.

(** ** Helpers of src/utils/__init__.py *)

Definition NL : char := 10.

(** [s.split('\n')] *)
Fixpoint split_nl (s : pystr) : list pystr :=
  match s with
  | [] => [[]]
  | c :: s' =>
    if c =? NL then [] :: split_nl s'
    else match split_nl s' with
         | line :: rest => (c :: line) :: rest
         | [] => [[c]]
         end
  end.

(** ['\n'.join(ls)] *)
Fixpoint join_nl (ls : list pystr) : pystr :=
  match ls with
  | [] => []
  | [l] => l
  | l :: ls' => l ++ NL :: join_nl ls'
  end.

(** [bool(v)] *)
Definition truthy (v : pyval) : bool :=
  match v with
  | VStr [] => false
  | VStr _ => true
  | VInt z => negb (z =? 0)%Z
  | VNone => false
  end.

(** The class [\x00-\x1F\x7F] of line 125 *)
Definition is_control (c : char) : bool := (c <=? 31) || (c =? 127).

(** [sanitize_input]; [re.sub] raises TypeError on what is not a string. *)
Definition sanitize_input (text : pyval) : exc pystr :=
  if negb (truthy text) then Ok []
  else
    match text with
    | VStr s =>
      let sanitized := filter (fun c => negb (is_control c)) s in
      Ok (if (2000 <? length sanitized)%nat then firstn 2000 sanitized
          else sanitized)
    | _ => Raise TypeError
    end.

(** One turn of the loop of lines 150-158, on [(parts, current_part)]. *)
Definition add_line (max_length : Z) (st : list pystr * pystr) (line : pystr)
    : list pystr * pystr :=
  let (parts, current_part) := st in
  if (max_length <? Z.of_nat (length current_part) + Z.of_nat (length line) + 1)%Z
  then (parts ++ [current_part], line)
  else
    match current_part with
    | [] => (parts, line)
    | _ => (parts, current_part ++ NL :: line)
    end.

Definition split_long_message (message : pystr) (max_length : Z) : list pystr :=
  if (Z.of_nat (length message) <=? max_length)%Z then [message]
  else
    let (parts, current_part) :=
      fold_left (add_line max_length) (split_nl message) ([], []) in
    match current_part with
    | [] => parts
    | _ => parts ++ [current_part]
    end.

(** The lines of a list of message parts that hold some character. *)
Definition nonempty_lines (parts : list pystr) : list pystr :=
  filter (fun line => negb (str_eqb line [])) (flat_map split_nl parts).

(** ** The formatters of [NLPProcessor]

    The texts are those of the source, named after the line they start
    on; [text] joins the lines of a literal with '\n'. *)

Fixpoint utf8_decode4 (bs : list N) : pystr :=
  match bs with
  | [] => []
  | b0 :: r0 =>
    if b0 <? 128 then b0 :: utf8_decode4 r0
    else match r0 with
      | [] => []
      | b1 :: r1 =>
        if b0 <? 224 then ((b0 - 192) * 64 + (b1 - 128)) :: utf8_decode4 r1
        else match r1 with
          | [] => []
          | b2 :: r2 =>
            if b0 <? 240 then
              ((b0 - 224) * 4096 + (b1 - 128) * 64 + (b2 - 128))
                :: utf8_decode4 r2
            else match r2 with
              | [] => []
              | b3 :: r3 =>
                ((b0 - 240) * 262144 + (b1 - 128) * 4096 + (b2 - 128) * 64
                 + (b3 - 128)) :: utf8_decode4 r3
              end
          end
      end
  end.

Definition text (lines : list string) : pystr :=
  join_nl (map (fun s => utf8_decode4 (bytes_of s)) lines).

Definition s321 : pystr :=
  text ["👨‍🏫 <b>Поиск преподавателей через текстовые запросы временно недоступен</b>";
        "";
        "Пожалуйста, воспользуйтесь функцией поиска преподавателей через меню 'Преподаватели' -> 'Поиск по фамилии'.";
        "";
        "В текстовом формате доступны запросы о местоположении (столовая, библиотека и т.д.), документах, мероприятиях и спортивных секциях."]%string.

Definition s331 : pystr :=
  text ["📚 <b>Поиск по дисциплинам через текстовые запросы временно недоступен</b>";
        "";
        "Пожалуйста, воспользуйтесь меню для просмотра информации о преподавателях и их дисциплинах.";
        "";
        "В текстовом формате доступны запросы о местоположении (столовая, библиотека и т.д.), документах, мероприятиях и спортивных секциях."]%string.

Definition s340 : pystr :=
  text ["К сожалению, информация о спортивных секциях временно недоступна. Рекомендую обратиться на кафедру физической культуры для получения актуальной информации."]%string.

Definition s342 : pystr :=
  text ["🏆 <b>Спортивные секции в колледже</b>";
        "";
        ""]%string.

Definition s343 : pystr :=
  text ["В нашем колледже представлены различные спортивные направления для всестороннего физического развития студентов. Вы можете выбрать любую секцию в соответствии с вашими интересами:";
        "";
        ""]%string.

Definition s346 : pystr :=
  text ["Название секции не указано"]%string.

Definition s347 : pystr :=
  text ["Не указан"]%string.

Definition s348 : pystr :=
  text ["Не указано"]%string.

Definition s349 : pystr :=
  text ["Не указано"]%string.

Definition s351_0 : pystr :=
  text ["🎯 <b>"]%string.

Definition s351_2 : pystr :=
  text ["</b>";
        ""]%string.

Definition s352_0 : pystr :=
  text ["👨‍🏫 Тренер: "]%string.

Definition s352_2 : pystr :=
  text ["";
        ""]%string.

Definition s353_0 : pystr :=
  text ["📍 Место проведения: "]%string.

Definition s353_2 : pystr :=
  text ["";
        ""]%string.

Definition s354_0 : pystr :=
  text ["⏰ Расписание: "]%string.

Definition s354_2 : pystr :=
  text ["";
        "";
        ""]%string.

Definition s356 : pystr :=
  text ["Для записи в секцию обратитесь к тренеру или на кафедру физической культуры. Занятия в секциях помогут вам поддерживать физическую форму и успешно сдавать нормативы."]%string.

Definition s364 : pystr :=
  text ["К сожалению, информация о документах временно недоступна. Рекомендую обратиться в учебную часть для получения актуальной информации о необходимых документах."]%string.

Definition s366 : pystr :=
  text ["📄 <b>Документы и справки в колледже</b>";
        "";
        ""]%string.

Definition s367 : pystr :=
  text ["В нашем колледже вы можете получить различные документы и справки. Ниже представлен список доступных документов и информация о том, как их получить:";
        "";
        ""]%string.

Definition s370 : pystr :=
  text ["Не указано"]%string.

Definition s371 : pystr :=
  text ["Описание отсутствует"]%string.

Definition s374_0 : pystr :=
  text ["📑 <b>"]%string.

Definition s374_2 : pystr :=
  text ["</b>";
        ""]%string.

Definition s375_0 : pystr :=
  text ["ℹ️ "]%string.

Definition s375_2 : pystr :=
  text ["";
        ""]%string.

Definition s377_0 : pystr :=
  text ["🔗 <a href='"]%string.

Definition s377_2 : pystr :=
  text ["'>Скачать бланк/образец</a>";
        ""]%string.

Definition s378 : pystr :=
  text ["";
        ""]%string.

Definition s380 : pystr :=
  text ["<b>Как получить документы:</b>";
        ""]%string.

Definition s381 : pystr :=
  text ["• Для получения справок обращайтесь в учебную часть (кабинет 205) в часы работы: пн-пт 9:00-17:00";
        ""]%string.

Definition s382 : pystr :=
  text ["• Справки об обучении выдаются в течение 3 рабочих дней после запроса";
        ""]%string.

Definition s383 : pystr :=
  text ["• При себе необходимо иметь студенческий билет или паспорт";
        ""]%string.

Definition s384 : pystr :=
  text ["• По вопросам оформления документов можно обратиться к своему куратору группы";
        ""]%string.

Definition s393 : pystr :=
  text ["🏢 <b>Навигация по колледжу</b>";
        "";
        "Извините, информация о расположении помещений временно недоступна. Рекомендуем обратиться на ресепшн при входе в здание колледжа для получения подробной информации."]%string.

Definition s400 : pystr :=
  text ["📚 <b>Библиотека колледжа</b>";
        "";
        "Библиотека находится на 3 этаже в кабинете 312. ";
        "";
        "<b>Часы работы:</b> Пн-Пт с 9:00 до 17:00, обед с 12:00 до 13:00";
        "";
        "<b>Услуги библиотеки:</b>";
        "• Выдача учебной литературы";
        "• Доступ к электронным ресурсам";
        "• Консультационная помощь";
        "• Копирование и сканирование материалов";
        "";
        "Для получения учебников необходимо предъявить студенческий билет. Срок выдачи учебной литературы - один семестр."]%string.

Definition s413 : pystr :=
  text ["🎮 <b>VR-лаборатория</b>";
        "";
        "VR-лаборатория расположена на 2 этаже в кабинете 208. ";
        "";
        "<b>Часы работы:</b> По расписанию занятий и во время проведения специальных мероприятий";
        "";
        "<b>Оборудование:</b>";
        "• VR-шлемы Oculus Quest 2";
        "• Мощные компьютеры для работы с VR";
        "• Интерактивные дисплеи";
        "";
        "Для посещения лаборатории вне учебного расписания необходимо предварительно записаться у куратора лаборатории."]%string.

Definition s424 : pystr :=
  text ["📝 <b>Учебная часть колледжа</b>";
        "";
        "Учебная часть расположена на 2 этаже в кабинете 205. ";
        "";
        "<b>Часы работы:</b> Пн-Пт с 9:00 до 17:00, обед с 12:00 до 13:00";
        "";
        "<b>Вопросы, решаемые в учебной части:</b>";
        "• Расписание занятий";
        "• Выдача справок об обучении";
        "• Оформление академических отпусков";
        "• Выдача зачетных книжек и студенческих билетов";
        "• Консультации по вопросам образовательного процесса";
        "";
        "При обращении необходимо иметь при себе студенческий билет или зачетную книжку."]%string.

Definition s437 : pystr :=
  text ["🍽️ <b>Столовая и буфет колледжа</b>";
        "";
        "Столовая находится на 1 этаже. ";
        "";
        "<b>Часы работы:</b>";
        "• Столовая: Пн-Пт с 9:00 до 16:00";
        "• Буфет: Пн-Пт с 8:30 до 17:00";
        "";
        "<b>Информация о питании:</b>";
        "• Ежедневно предлагается разнообразное меню";
        "• Возможна оплата наличными и банковскими картами";
        "• Для льготных категорий студентов предусмотрено бесплатное питание";
        "";
        "Для оформления льготного питания необходимо обратиться в социальный отдел колледжа."]%string.

Definition s450 : pystr :=
  text ["👥 <b>Студенческий совет колледжа</b>";
        "";
        "Студенческий совет расположен на 2 этаже в кабинете 220. ";
        "";
        "<b>Часы работы:</b> Пн-Пт с 10:00 до 16:00";
        "";
        "<b>Направления деятельности студсовета:</b>";
        "• Организация студенческих мероприятий";
        "• Поддержка студенческих инициатив";
        "• Защита прав и интересов студентов";
        "• Волонтерство и общественная деятельность";
        "";
        "Каждый студент может принять участие в работе студенческого совета. Выборы в студсовет проводятся ежегодно в октябре."]%string.

Definition s462 : pystr :=
  text ["💰 <b>Бухгалтерия колледжа</b>";
        "";
        "Бухгалтерия находится на 1 этаже в кабинете 103. ";
        "";
        "<b>Часы работы:</b> Пн-Пт с 9:00 до 16:00, обед с 12:00 до 13:00";
        "<b>Приемные часы для студентов:</b> Вт, Чт с 13:00 до 16:00";
        "";
        "<b>Вопросы, решаемые в бухгалтерии:</b>";
        "• Оплата обучения";
        "• Выдача квитанций и справок об оплате";
        "• Стипендиальные выплаты";
        "• Материальная помощь";
        "";
        "Для решения финансовых вопросов необходимо иметь при себе паспорт и студенческий билет."]%string.

Definition s475 : pystr :=
  text ["🎭 <b>Актовый зал колледжа</b>";
        "";
        "Актовый зал находится на 2 этаже. ";
        "";
        "<b>Характеристики:</b>";
        "• Вместимость: до 200 человек";
        "• Оборудование: современная аудио и видеосистемы, проектор";
        "• Сцена площадью 40 кв.м";
        "";
        "<b>Назначение:</b>";
        "• Проведение торжественных мероприятий";
        "• Конференции и семинары";
        "• Концерты и творческие выступления";
        "• Собрания и встречи";
        "";
        "Для бронирования актового зала необходимо обратиться к заместителю директора по воспитательной работе."]%string.

Definition s490 : pystr :=
  text ["🏀 <b>Спортивный зал колледжа</b>";
        "";
        "Спортзал находится на 2 этаже. ";
        "";
        "<b>Часы работы:</b> Пн-Сб с 8:00 до 20:00 по расписанию занятий и секций";
        "";
        "<b>Инфраструктура:</b>";
        "• Универсальный игровой зал";
        "• Тренажерный зал";
        "• Раздевалки с душевыми";
        "• Спортивный инвентарь";
        "";
        "<b>Секции и занятия:</b>";
        "• Волейбол, баскетбол, мини-футбол";
        "• Настольный теннис";
        "• Фитнес и общая физическая подготовка";
        "";
        "Для посещения спортзала вне учебных занятий необходимо записаться у преподавателя физкультуры."]%string.

Definition s506 : pystr :=
  text ["🩺 <b>Медицинский пункт колледжа</b>";
        "";
        "Медпункт находится на 1 этаже в кабинете 106. ";
        "";
        "<b>Часы работы:</b> Пн-Пт с 9:00 до 16:00";
        "";
        "<b>Услуги медпункта:</b>";
        "• Первая медицинская помощь";
        "• Плановые медицинские осмотры";
        "• Профилактические мероприятия";
        "• Выдача справок по болезни";
        "";
        "Для получения медицинской помощи необходимо предъявить студенческий билет и полис ОМС. В экстренных случаях помощь оказывается всем обратившимся."]%string.

Definition s519 : pystr :=
  text ["🏢 <b>Навигация по колледжу</b>";
        "";
        ""]%string.

Definition s520 : pystr :=
  text ["Здание колледжа имеет 3 этажа. Ниже представлена информация о расположении основных помещений:";
        "";
        ""]%string.

Definition s522 : pystr :=
  text ["📚 <b>Библиотека</b>: 3 этаж, кабинет 312";
        ""]%string.

Definition s523 : pystr :=
  text ["🎮 <b>VR-лаборатория</b>: 2 этаж, кабинет 208";
        ""]%string.

Definition s524 : pystr :=
  text ["📝 <b>Учебная часть</b>: 2 этаж, кабинет 205";
        ""]%string.

Definition s525 : pystr :=
  text ["🍽️ <b>Столовая</b>: 1 этаж";
        ""]%string.

Definition s526 : pystr :=
  text ["👥 <b>Студенческий совет</b>: 2 этаж, кабинет 220";
        ""]%string.

Definition s527 : pystr :=
  text ["💰 <b>Бухгалтерия</b>: 1 этаж, кабинет 103";
        ""]%string.

Definition s528 : pystr :=
  text ["🎭 <b>Актовый зал</b>: 2 этаж";
        ""]%string.

Definition s529 : pystr :=
  text ["🏀 <b>Спортивный зал</b>: 2 этаж";
        ""]%string.

Definition s530 : pystr :=
  text ["🩺 <b>Медицинский пункт</b>: 1 этаж, кабинет 106";
        "";
        ""]%string.

Definition s532 : pystr :=
  text ["Для более подробной информации о конкретном помещении, спросите например: 'Где находится библиотека?' или 'Как пройти в столовую?'"]%string.

Definition s540 : pystr :=
  text ["🎉 <b>Мероприятия колледжа</b>";
        "";
        "На данный момент нет запланированных мероприятий. Информация о будущих событиях будет доступна позже. Следите за обновлениями в группе колледжа ВКонтакте и Telegram-канале."]%string.

Definition s542 : pystr :=
  text ["🎉 <b>Ближайшие мероприятия колледжа</b>";
        "";
        ""]%string.

Definition s543 : pystr :=
  text ["В ближайшее время в колледже запланированы следующие мероприятия. Приглашаем всех студентов принять участие!";
        "";
        ""]%string.

Definition s546 : pystr :=
  text ["Дата не указана"]%string.

Definition s547 : pystr :=
  text ["Название не указано"]%string.

Definition s548 : pystr :=
  text ["Место не указано"]%string.

Definition s550_0 : pystr :=
  text ["📌 <b>"]%string.

Definition s550_2 : pystr :=
  text ["</b>";
        ""]%string.

Definition s551_0 : pystr :=
  text ["📅 Дата и время: "]%string.

Definition s551_2 : pystr :=
  text ["";
        ""]%string.

Definition s552_0 : pystr :=
  text ["📍 Место проведения: "]%string.

Definition s552_2 : pystr :=
  text ["";
        "";
        ""]%string.

Definition s554 : pystr :=
  text ["<b>Как принять участие:</b>";
        ""]%string.

Definition s555 : pystr :=
  text ["• Для участия в большинстве мероприятий требуется предварительная регистрация";
        ""]%string.

Definition s556 : pystr :=
  text ["• Записаться можно у организаторов или через студенческий совет";
        ""]%string.

Definition s557 : pystr :=
  text ["• Следите за обновлениями в группе колледжа ВКонтакте и Telegram-канале";
        ""]%string.

Definition s565 : pystr :=
  text ["🏠 <b>Общежития колледжа</b>";
        "";
        "К сожалению, информация об общежитиях временно недоступна. Рекомендуем обратиться в учебную часть для получения актуальной информации о заселении и условиях проживания."]%string.

Definition s567 : pystr :=
  text ["🏠 <b>Общежития Пермского финансово-экономического колледжа</b>";
        "";
        ""]%string.

Definition s568 : pystr :=
  text ["Студентам колледжа предоставляется возможность проживания в общежитиях. Ниже представлена информация об общежитиях, условиях проживания и правилах заселения:";
        "";
        ""]%string.

Definition s571 : pystr :=
  text ["Номер не указан"]%string.

Definition s572 : pystr :=
  text ["Не указан"]%string.

Definition s573 : pystr :=
  text ["Не указан"]%string.

Definition s574 : pystr :=
  text ["Не указан"]%string.

Definition s576_0 : pystr :=
  text ["🏢 <b>Общежитие №"]%string.

Definition s576_2 : pystr :=
  text ["</b>";
        ""]%string.

Definition s577_0 : pystr :=
  text ["📍 Адрес: "]%string.

Definition s577_2 : pystr :=
  text ["";
        ""]%string.

Definition s578_0 : pystr :=
  text ["👤 Комендант: "]%string.

Definition s578_2 : pystr :=
  text ["";
        ""]%string.

Definition s579_0 : pystr :=
  text ["📞 Контактный телефон: "]%string.

Definition s579_2 : pystr :=
  text ["";
        "";
        ""]%string.

Definition s581 : pystr :=
  text ["<b>Правила заселения в общежитие:</b>";
        ""]%string.

Definition s582 : pystr :=
  text ["• Заселение происходит на основании приказа о зачислении";
        ""]%string.

Definition s583 : pystr :=
  text ["• Необходимо предоставить паспорт, медицинскую справку и фотографии";
        ""]%string.

Definition s584 : pystr :=
  text ["• Заселение проводится в конце августа перед началом учебного года";
        ""]%string.

Definition s585 : pystr :=
  text ["• Стоимость проживания и подробности можно уточнить в учебной части";
        "";
        ""]%string.

Definition s587 : pystr :=
  text ["Для получения дополнительной информации обращайтесь в учебную часть колледжа."]%string.


(** A row of a table, and what the getters of [DatabaseManager] return
    when the formatter calls them (each getter answers [[]] on any error). *)
Definition row := list pyval.

Record db_manager := {
  get_sections : list row;
  get_documents : list row;
  get_navigation : list row;
  get_events : list row;
  get_dormitories : list row
}.

(** [f"{r[i]}"] when [len(r) > i], the default otherwise *)
Definition field_or (i : nat) (r : row) (default : pystr) : pystr :=
  match nth_error r i with
  | Some v => py_str v
  | None => default
  end.

Definition _process_teacher_query (keywords : list pystr) : pystr := s321.

Definition _process_discipline_query (keywords : list pystr) : pystr := s331.

Definition _process_sport_query (dbm : db_manager) : pystr :=
  match get_sections dbm with
  | [] => s340
  | sections =>
    s342 ++ s343
    ++ flat_map (fun section =>
         let name := field_or 1 section s346 in
         let coach := field_or 2 section s347 in
         let location := field_or 3 section s348 in
         let schedule := field_or 4 section s349 in
         s351_0 ++ name ++ s351_2 ++ s352_0 ++ coach ++ s352_2
         ++ s353_0 ++ location ++ s353_2 ++ s354_0 ++ schedule ++ s354_2)
       sections
    ++ s356
  end.

Definition _process_document_query (dbm : db_manager) : pystr :=
  match get_documents dbm with
  | [] => s364
  | docs =>
    s366 ++ s367
    ++ flat_map (fun doc =>
         let name := field_or 1 doc s370 in
         let description := field_or 2 doc s371 in
         let link := match nth_error doc 3 with
                     | Some v => if truthy v then Some v else None
                     | None => None
                     end in
         s374_0 ++ name ++ s374_2 ++ s375_0 ++ description ++ s375_2
         ++ match link with
            | Some v => s377_0 ++ py_str v ++ s377_2
            | None => []
            end
         ++ s378)
       docs
    ++ s380 ++ s381 ++ s382 ++ s383 ++ s384
  end.

Definition _process_event_query (dbm : db_manager) : pystr :=
  match get_events dbm with
  | [] => s540
  | events =>
    s542 ++ s543
    ++ flat_map (fun event =>
         let date := field_or 1 event s546 in
         let title := field_or 2 event s547 in
         let location := field_or 3 event s548 in
         s550_0 ++ title ++ s550_2 ++ s551_0 ++ date ++ s551_2
         ++ s552_0 ++ location ++ s552_2)
       events
    ++ s554 ++ s555 ++ s556 ++ s557
  end.

Definition _process_dormitory_query (dbm : db_manager) : pystr :=
  match get_dormitories dbm with
  | [] => s565
  | dorms =>
    s567 ++ s568
    ++ flat_map (fun dorm =>
         let number := field_or 1 dorm s571 in
         let warden := field_or 2 dorm s572 in
         let address := field_or 3 dorm s573 in
         let phone := field_or 4 dorm s574 in
         s576_0 ++ number ++ s576_2 ++ s577_0 ++ address ++ s577_2
         ++ s578_0 ++ warden ++ s578_2 ++ s579_0 ++ phone ++ s579_2)
       dorms
    ++ s581 ++ s582 ++ s583 ++ s584 ++ s585 ++ s587
  end.

Section Formatters.

Variable db : chardb.

Definition _process_navigation_query (dbm : db_manager) (keywords : list pystr)
    : pystr :=
  match get_navigation dbm with
  | [] => s393
  | _ =>
    let keywords_string := lower db (join_sp keywords) in
    if contains (u "библиотека") keywords_string
       || contains (u "библиотеки") keywords_string
       || contains (u "книги") keywords_string
    then s400
    else if contains (u "vr") keywords_string
       || contains (u "лаборатория") keywords_string
       || contains (u "виртуальная реальность") keywords_string
    then s413
    else if contains (u "учебная") keywords_string
       || contains (u "деканат") keywords_string
       || contains (u "учебный") keywords_string
    then s424
    else if contains (u "столовая") keywords_string
       || contains (u "буфет") keywords_string
       || contains (u "поесть") keywords_string
       || contains (u "еда") keywords_string
    then s437
    else if contains (u "студенческий") keywords_string
       || contains (u "совет") keywords_string
       || contains (u "студсовет") keywords_string
    then s450
    else if contains (u "бухгалтерия") keywords_string
       || contains (u "оплата") keywords_string
       || contains (u "финансы") keywords_string
    then s462
    else if contains (u "актовый") keywords_string
       || contains (u "зал") keywords_string
    then s475
    else if contains (u "спортзал") keywords_string
       || contains (u "спортивный") keywords_string
       || contains (u "физкультура") keywords_string
    then s490
    else if contains (u "медпункт") keywords_string
       || contains (u "медицинский") keywords_string
       || contains (u "врач") keywords_string
    then s506
    else
      s519 ++ s520 ++ s522 ++ s523 ++ s524 ++ s525 ++ s526 ++ s527 ++ s528
      ++ s529 ++ s530 ++ s532
  end.

(** The formatters as [process_query] calls them; none of them raises on
    rows of text, integers and NULL. *)
Definition nlp_replies (dbm : db_manager) : responders := {|
  process_teacher_query := fun keywords => Ok (_process_teacher_query keywords);
  process_discipline_query :=
    fun keywords => Ok (_process_discipline_query keywords);
  process_sport_query := Ok (_process_sport_query dbm);
  process_document_query := Ok (_process_document_query dbm);
  process_navigation_query :=
    fun keywords => Ok (_process_navigation_query dbm keywords);
  process_event_query := Ok (_process_event_query dbm);
  process_dormitory_query := Ok (_process_dormitory_query dbm)
|}.

End Formatters.

(** A data store with one navigation row and nothing else. *)
Definition demo_dbm : db_manager := {|
  get_sections := [];
  get_documents := [];
  get_navigation := [[VInt 1; VStr (u "312")]];
  get_events := [];
  get_dormitories := []
|}.

(** The answer given for each location tag that [categorize_query] can
    return, when the navigation table is not empty. *)
Definition location_answers : list (pystr * pystr) :=
  [(u "библиотека", s400); (u "столовая", s437); (u "лаборатория", s413);
   (u "деканат", s424); (u "учебная часть", s424); (u "студсовет", s450);
   (u "бухгалтерия", s462); (u "актовый зал", s475); (u "спортзал", s475);
   (u "медпункт", s506)].

(** The query gets as far as the exact keyword step (step 8). *)
Definition reaches_exact_step (db : chardb) (morph : pystr -> option pystr)
    (disc_iter : list pystr) (surnames : roster) (text : pystr) : Prop :=
  reaches_discipline_step db morph surnames text
  /\ step_discipline db morph disc_iter (lower db text) = None
  /\ step_phrases (lower db text) (keywords_of db morph (lower db text)) = None.

(** Some keyword of the query is a trigger word of the category. *)
Definition category_has_keyword (keywords : list pystr)
    (cat : pystr * list pystr) : bool :=
  existsb (fun keyword => mem keyword (snd cat)) keywords.

(** ** format_teacher_disciplines (src/utils/__init__.py)

    The argument is a list, a string, bytes or None.  The codecs are
    external: [decode_utf8] and [decode_cp1251] answer [None] for
    UnicodeDecodeError; 'latin1' decodes every byte to the code point of the
    same number, so the loop of lines 47-53 always ends by [break]. *)

Inductive disciplines_arg :=
| DList (items : list pyval)
| DStr (s : pystr)
| DBytes (bs : list N)
| DNone.

Definition NO_DISCIPLINES : pystr := u "Дисциплины не указаны".

(** [re.split(r'[,;.\n]', s)] and the like: cut at every separator. *)
Fixpoint split_at (sep : char -> bool) (s : pystr) : list pystr :=
  match s with
  | [] => [[]]
  | c :: s' =>
    if sep c then [] :: split_at sep s'
    else match split_at sep s' with
         | piece :: rest => (c :: piece) :: rest
         | [] => [[c]]
         end
  end.

Definition is_separator (c : char) : bool :=
  (c =? 44) || (c =? 59) || (c =? 46) || (c =? NL).

Section FormatDisciplines.

Variable db : chardb.
Variable islower : char -> bool.           (* str.islower of one character *)
Variable decode_utf8 : list N -> option pystr.
Variable decode_cp1251 : list N -> option pystr.

Fixpoint lstrip (s : pystr) : pystr :=
  match s with
  | [] => []
  | c :: s' => if isspace db c then lstrip s' else s
  end.

(** [s.strip()] *)
Definition strip (s : pystr) : pystr := rev (lstrip (rev (lstrip s))).

(** Lines 31-34 and 94-97: capital first letter, then the bullet. *)
Definition bullet_item (disc : pystr) : pystr :=
  let disc :=
    match disc with
    | [] => []
    | c :: r => if islower c then toupper db c ++ r else disc
    end in
  u "• " ++ disc.

(** The two loops that fill [formatted_disciplines]. *)
Definition format_items (raw : list pystr) : list pystr :=
  flat_map (fun disc =>
              match strip disc with
              | [] => []
              | d => [bullet_item d]
              end) raw.

(** [re.sub(r'[^\w\s\.,;:-]', ' ', s)] *)
Definition clean_disciplines (s : pystr) : pystr :=
  map (fun c => if isword db c || isspace db c || (c =? 46) || (c =? 44)
                   || (c =? 59) || (c =? 58) || (c =? 45)
                then c else SPACE) s.

(** [re.sub(r'\s+', ' ', s)]; [in_run] tells that the last character read
    was white space. *)
Fixpoint collapse_spaces (in_run : bool) (s : pystr) : pystr :=
  match s with
  | [] => []
  | c :: s' =>
    if isspace db c then
      if in_run then collapse_spaces true s'
      else SPACE :: collapse_spaces true s'
    else c :: collapse_spaces false s'
  end.

Definition decode_bytes (bs : list N) : pystr :=
  match decode_utf8 bs with
  | Some s => s
  | None =>
    match decode_cp1251 bs with
    | Some s => s
    | None => bs
    end
  end.

(** Lines 66-103, on a string. *)
Definition format_disciplines_str (disciplines_str : pystr) : pystr :=
  let disciplines_str :=
    strip (collapse_spaces false (clean_disciplines disciplines_str)) in
  match disciplines_str with
  | [] => NO_DISCIPLINES
  | _ =>
    let raw_disciplines :=
      if existsb is_separator disciplines_str
      then split_at is_separator disciplines_str
      else [disciplines_str] in
    match format_items raw_disciplines with
    | [] => NO_DISCIPLINES
    | formatted_disciplines => join_nl formatted_disciplines
    end
  end.

Definition format_teacher_disciplines (disciplines_list : disciplines_arg)
    : pystr :=
  match disciplines_list with
  | DNone | DList [] | DStr [] | DBytes [] => NO_DISCIPLINES
  | DList items =>
    let strings :=
      flat_map (fun disc => match disc with
                            | VStr (c :: s) => [c :: s]
                            | _ => []
                            end) items in
    match format_items strings with
    | [] => NO_DISCIPLINES
    | formatted_disciplines => join_nl formatted_disciplines
    end
  | DStr s => format_disciplines_str s
  | DBytes bs => format_disciplines_str (decode_bytes bs)
  end.

End FormatDisciplines.

(** An [islower] for ASCII and Russian, and codecs that accept ASCII
    only, for the examples. *)
Definition ru_islower (c : char) : bool :=
  ((97 <=? c) && (c <=? 122)) || ((1072 <=? c) && (c <=? 1119)).

Definition decode_ascii (bs : list N) : option pystr :=
  if forallb (fun b => b <? 128) bs then Some bs else None.

(** ** Strings and lists *)

Lemma str_eqb_eq (a b : pystr) : str_eqb a b = true <-> a = b.
Proof.
  revert b; induction a as [|x a IH]; intros [|y b]; simpl; split;
    try easy.
  - rewrite andb_true_iff, N.eqb_eq, IH. now intros [-> ->].
  - intros [= -> ->]. rewrite N.eqb_refl. now apply IH.
Qed.

Lemma str_eqb_refl (a : pystr) : str_eqb a a = true.
Proof. now apply str_eqb_eq. Qed.

Lemma str_eqb_neq (a b : pystr) : str_eqb a b = false <-> a <> b.
Proof.
  split.
  - intros H E. apply str_eqb_eq in E. congruence.
  - intros H. destruct (str_eqb a b) eqn:E; [|easy].
    apply str_eqb_eq in E. contradiction.
Qed.

Lemma mem_In (w : pystr) (xs : list pystr) : mem w xs = true <-> In w xs.
Proof.
  unfold mem. rewrite existsb_exists. split.
  - intros (x & Hx & E). apply str_eqb_eq in E. now subst.
  - intros H. exists w. split; [easy | apply str_eqb_refl].
Qed.

Lemma startswith_spec (p s : pystr) :
  startswith p s = true <-> exists r, s = p ++ r.
Proof.
  revert s; induction p as [|x p IH]; intros s; simpl.
  - split; [now exists s | easy].
  - destruct s as [|y s]; [split; [easy | now intros (r & [=])]|].
    rewrite andb_true_iff, N.eqb_eq, IH. split.
    + intros (-> & r & ->). now exists r.
    + intros (r & [= -> ->]). split; [easy | now exists r].
Qed.

Lemma contains_spec (p s : pystr) :
  contains p s = true <-> exists a b, s = a ++ p ++ b.
Proof.
  induction s as [|y s IH]; simpl.
  - rewrite orb_false_r, startswith_spec. split.
    + intros (r & E). now exists [], r.
    + intros (a & b & E). destruct a; [now exists b|easy].
  - rewrite orb_true_iff, IH, startswith_spec. split.
    + intros [(r & E) | (a & b & E)].
      * now exists [], r.
      * exists (y :: a), b. simpl. now rewrite E.
    + intros (a & b & E). destruct a as [|z a]; simpl in E.
      * left. now exists b.
      * right. injection E as -> ->. now exists a, b.
Qed.

Lemma find_map_Some {A B} (f : A -> option B) (l : list A) (y : B) :
  find_map f l = Some y <->
  exists pre x post, l = pre ++ x :: post /\ f x = Some y
                     /\ forall z, In z pre -> f z = None.
Proof.
  induction l as [|a l IH]; simpl.
  - split; [easy | intros (pre & x & post & E & _)]. now destruct pre.
  - destruct (f a) eqn:Fa.
    + split.
      * intros [= ->]. now exists [], a, l.
      * intros (pre & x & post & E & Fx & Hpre). destruct pre as [|z pre].
        -- injection E as -> ->. congruence.
        -- injection E as -> ->. rewrite Hpre in Fa; [easy | now left].
    + rewrite IH. split.
      * intros (pre & x & post & -> & Fx & Hpre).
        exists (a :: pre), x, post. repeat split; try easy.
        intros z [<- | Hz]; auto.
      * intros (pre & x & post & E & Fx & Hpre). destruct pre as [|z pre].
        -- injection E as -> ->. congruence.
        -- injection E as -> ->. exists pre, x, post.
           repeat split; try easy. intros w Hw. apply Hpre. now right.
Qed.

Lemma find_map_None {A B} (f : A -> option B) (l : list A) :
  find_map f l = None <-> forall x, In x l -> f x = None.
Proof.
  induction l as [|a l IH]; simpl; [easy|].
  destruct (f a) eqn:Fa.
  - split; [easy | intros H]. rewrite H in Fa; [easy | now left].
  - rewrite IH. split.
    + intros H x [<- | Hx]; auto.
    + intros H x Hx. apply H. now right.
Qed.

Lemma find_Some_split {A} (f : A -> bool) (l : list A) (x : A) :
  find f l = Some x <->
  exists pre post, l = pre ++ x :: post /\ f x = true
                   /\ forall z, In z pre -> f z = false.
Proof.
  induction l as [|a l IH]; simpl.
  - split; [easy | intros (pre & post & E & _)]. now destruct pre.
  - destruct (f a) eqn:Fa.
    + split.
      * intros [= ->]. now exists [], l.
      * intros (pre & post & E & Fx & Hpre). destruct pre as [|z pre].
        -- now injection E as -> ->.
        -- injection E as -> ->. rewrite Hpre in Fa; [easy | now left].
    + rewrite IH. split.
      * intros (pre & post & -> & Fx & Hpre).
        exists (a :: pre), post. repeat split; try easy.
        intros z [<- | Hz]; auto.
      * intros (pre & post & E & Fx & Hpre). destruct pre as [|z pre].
        -- injection E as -> ->. congruence.
        -- injection E as -> ->. exists pre, post.
           repeat split; try easy. intros w Hw. apply Hpre. now right.
Qed.

Lemma find_None_all {A} (f : A -> bool) (l : list A) :
  (forall x, In x l -> f x = false) -> find f l = None.
Proof.
  induction l as [|a l IH]; simpl; intros H; [easy|].
  rewrite (H a); [|now left]. apply IH. intros x Hx. apply H. now right.
Qed.

Lemma orelse_Some {A} (a b : option A) (x : A) :
  orelse a b = Some x <-> a = Some x \/ (a = None /\ b = Some x).
Proof. destruct a; simpl; intuition congruence. Qed.

Lemma orelse_None {A} (a b : option A) :
  orelse a b = None <-> a = None /\ b = None.
Proof. destruct a; simpl; intuition congruence. Qed.

(** *** Python dicts and logs *)

Lemma assoc_dict_set_same (k v : pystr) (d : roster) :
  assoc k (dict_set k v d) = Some v.
Proof.
  induction d as [|[k' v'] d IH]; simpl.
  - now rewrite str_eqb_refl.
  - destruct (str_eqb k k') eqn:E; simpl; rewrite E; [easy | apply IH].
Qed.

Lemma assoc_dict_set_other (k k0 v : pystr) (d : roster) :
  k0 <> k -> assoc k0 (dict_set k v d) = assoc k0 d.
Proof.
  intros N. induction d as [|[k' v'] d IH]; simpl.
  - apply str_eqb_neq in N. now rewrite N.
  - destruct (str_eqb k k') eqn:E; simpl.
    + apply str_eqb_eq in E. subst k'.
      apply str_eqb_neq in N. now rewrite N.
    + now rewrite IH.
Qed.

Lemma assoc_In_keys (k : pystr) (d : roster) :
  In k (map fst d) <-> exists v, assoc k d = Some v.
Proof.
  induction d as [|[k' v'] d IH]; simpl.
  - split; [easy | now intros (v & H)].
  - destruct (str_eqb k k') eqn:E.
    + apply str_eqb_eq in E. subst. split; [now exists v' | now left].
    + rewrite <- IH. apply str_eqb_neq in E. split; [|tauto].
      intros [H | H]; [now symmetry in H | easy].
Qed.

Lemma dict_set_NoDup (k v : pystr) (d : roster) :
  NoDup (map fst d) -> NoDup (map fst (dict_set k v d)).
Proof.
  induction d as [|[k' v'] d IH]; simpl; intros H.
  - constructor; [easy | constructor].
  - destruct (str_eqb k k') eqn:E; simpl; [easy|].
    inversion H as [|? ? Hn Hd]; subst. constructor; [|now apply IH].
    intros Hin. apply assoc_In_keys in Hin. destruct Hin as (w & Hw).
    rewrite assoc_dict_set_other in Hw.
    + apply Hn, assoc_In_keys. now exists w.
    + intros ->. now rewrite str_eqb_refl in E.
Qed.

(** An assignment keeps the place of a key that is there, and puts a new
    key last. *)
Lemma dict_set_keys (k v : pystr) (d : roster) :
  map fst (dict_set k v d) =
  if mem k (map fst d) then map fst d else map fst d ++ [k].
Proof.
  unfold mem. induction d as [|[k' v'] d IH]; [easy|].
  cbn [dict_set map fst existsb].
  destruct (str_eqb k k') eqn:E; [easy|]. cbn [orb map fst].
  rewrite IH. now destruct (existsb (str_eqb k) (map fst d)).
Qed.

Lemma find_first_occurrences_from (P : pystr -> bool) (ks seen : list pystr) :
  (forall k, In k seen -> P k = false) ->
  find P (first_occurrences_from seen ks) = find P ks.
Proof.
  revert seen; induction ks as [|k ks IH]; intros seen Hseen; [easy|].
  cbn [first_occurrences_from find].
  destruct (mem k seen) eqn:M.
  - apply mem_In in M. rewrite (Hseen k M). now apply IH.
  - cbn [find]. destruct (P k) eqn:Pk; [easy|]. apply IH.
    intros k' [<- | H]; [easy | now apply Hseen].
Qed.

Lemma skipped_of_app (l1 l2 : log) :
  skipped_of (l1 ++ l2) = skipped_of l1 ++ skipped_of l2.
Proof.
  induction l1 as [|[lv m] l1 IH]; simpl; [easy|].
  destruct lv, m; simpl; now rewrite ?IH.
Qed.

Section Properties.

Set Default Proof Using "Type".

Variable db : chardb.
Variable morph : pystr -> option pystr.
Variable disc_iter : list pystr.
Variable replies : responders.

(** *** The category of each step *)

Lemma step_roster_category surnames keywords r :
  step_roster db surnames keywords = Some r -> fst r = teacher.
Proof.
  unfold step_roster. destruct (find_map _ _); simpl; [|easy].
  now intros [= <-].
Qed.

Lemma step_navigation_category text_lower keywords r :
  step_navigation text_lower keywords = Some r -> fst r = navigation.
Proof.
  unfold step_navigation.
  repeat match goal with
         | |- context [if ?b then _ else _] => destruct b
         | |- context [match ?o with Some _ => _ | None => _ end] => destruct o
         end; try easy; now intros [= <-].
Qed.

Lemma step_teacher_noun_category text_lower keywords r :
  step_teacher_noun db text_lower keywords = Some r -> fst r = teacher.
Proof.
  unfold step_teacher_noun. destruct (existsb _ _); [|easy].
  destruct (find _ _); simpl; [|easy]. now intros [= <-].
Qed.

Lemma step_capitalized_category keywords r :
  step_capitalized db keywords = Some r -> fst r = teacher.
Proof.
  unfold step_capitalized. destruct (find _ _); simpl; [|easy].
  now intros [= <-].
Qed.

Lemma step_discipline_category text_lower r :
  step_discipline db morph disc_iter text_lower = Some r -> fst r = discipline.
Proof.
  unfold step_discipline. destruct (find_discipline_in_text _ _ _ _) as [[|c d]|];
    try easy. now intros [= <-].
Qed.

Lemma step_phrases_category text_lower keywords r :
  step_phrases text_lower keywords = Some r ->
  fst r = teacher \/ fst r = navigation.
Proof.
  unfold step_phrases.
  repeat match goal with
         | |- context [if ?b then _ else _] => destruct b
         end; try easy; intros [= <-]; auto.
Qed.

Lemma find_category_In (f : pystr * list pystr -> bool) cat :
  find f categories = Some cat -> In (fst cat) CATEGORIES.
Proof.
  intros H. apply find_some in H. destruct H as [H _].
  unfold categories in H. simpl in H.
  repeat (destruct H as [<- | H]; [simpl; auto 12|]). easy.
Qed.

Lemma step_exact_category keywords r :
  step_exact keywords = Some r -> In (fst r) CATEGORIES.
Proof.
  unfold step_exact. destruct (find _ _) eqn:E; simpl; [|easy].
  intros [= <-]. simpl. eapply find_category_In, E.
Qed.

Lemma step_fuzzy_category keywords r :
  step_fuzzy keywords = Some r -> In (fst r) CATEGORIES.
Proof.
  unfold step_fuzzy. destruct (find _ _) eqn:E; simpl; [|easy].
  intros [= <-]. simpl. eapply find_category_In, E.
Qed.

(** C3.  For every argument, [categorize_query] returns a pair whose
    category is one of the eight of the closed set.  When the body of its
    [try] completes, that pair is the body's; when the body raises, whatever
    the exception, the pair is [('unknown', [])]. *)
Theorem categorize_query_total_closed (surnames : roster) (text : pyval) :
  In (fst (categorize_query db morph disc_iter surnames text)) CATEGORIES
  /\ match categorize_body db morph disc_iter surnames text with
     | Ok r => categorize_query db morph disc_iter surnames text = r
     | Raise _ => categorize_query db morph disc_iter surnames text = (unknown, [])
     end.
Proof.
  split.
  2: { unfold categorize_query. now destruct (categorize_body _ _ _ _ _). }
  unfold categorize_query, categorize_body.
  destruct text as [s| |]; simpl; try auto 12.
  match goal with
  | |- context [match ?o with Some _ => _ | None => _ end] =>
    destruct o as [r|] eqn:E
  end; [|simpl; auto 12].
  repeat (apply orelse_Some in E; destruct E as [E | [_ E]]).
  - rewrite (step_roster_category _ _ _ E). simpl; auto 12.
  - rewrite (step_navigation_category _ _ _ E). simpl; auto 12.
  - rewrite (step_teacher_noun_category _ _ _ E). simpl; auto 12.
  - rewrite (step_capitalized_category _ _ E). simpl; auto 12.
  - rewrite (step_discipline_category _ _ E). simpl; auto 12.
  - destruct (step_phrases_category _ _ _ E) as [-> | ->]; simpl; auto 12.
  - eapply step_exact_category, E.
  - eapply step_fuzzy_category, E.
Qed.

(** *** The roster index *)

Lemma add_teacher_seq (d : roster) (l : log) (fs : list pyval) :
  add_teacher db (d, l) (RSeq fs) =
  if (4 <=? length fs)%nat then
    (dict_set (surname_of db fs) (full_name_of fs) d,
     l ++ [(DEBUG, AddedSurname (surname_of db fs) (full_name_of fs))])
  else (d, l ++ [(WARNING, InsufficientFields (RSeq fs))]).
Proof.
  unfold add_teacher. rewrite Nat.ltb_antisym.
  now destruct (4 <=? length fs)%nat.
Qed.

(** The loop of lines 62-79, from any state. *)
Lemma add_teachers_assoc (ts : list record) (d : roster) (l : log) (k : pystr) :
  assoc k (fst (fold_left (add_teacher db) ts (d, l))) =
  match last_record db k ts with
  | Some fs => Some (full_name_of fs)
  | None => assoc k d
  end.
Proof.
  revert d l; induction ts as [|t ts IH]; intros d l; [easy|].
  cbn [fold_left last_record]. destruct t as [fs|v].
  - rewrite add_teacher_seq. cbn [indexable].
    destruct (4 <=? length fs)%nat; rewrite IH;
      destruct (last_record db k ts); try easy. cbn [andb].
    destruct (str_eqb (surname_of db fs) k) eqn:E.
    + apply str_eqb_eq in E. subst k. apply assoc_dict_set_same.
    + apply assoc_dict_set_other. intros ->. now rewrite str_eqb_refl in E.
  - cbn [add_teacher]. rewrite IH. now destruct (last_record db k ts).
Qed.

Lemma add_teachers_NoDup (ts : list record) (d : roster) (l : log) :
  NoDup (map fst d) ->
  NoDup (map fst (fst (fold_left (add_teacher db) ts (d, l)))).
Proof.
  revert d l; induction ts as [|t ts IH]; intros d l H; [easy|].
  cbn [fold_left]. destruct t as [fs|v].
  - rewrite add_teacher_seq.
    destruct (4 <=? length fs)%nat; apply IH; [now apply dict_set_NoDup | easy].
  - now apply IH.
Qed.

Lemma add_teachers_skipped (ts : list record) (d : roster) (l : log) :
  skipped_of (snd (fold_left (add_teacher db) ts (d, l))) =
  skipped_of l ++ filter (fun t => negb (indexable t)) ts.
Proof.
  revert d l; induction ts as [|t ts IH]; intros d l.
  - simpl. now rewrite app_nil_r.
  - cbn [fold_left filter]. destruct t as [fs|v].
    + rewrite add_teacher_seq. cbn [indexable].
      destruct (4 <=? length fs)%nat; rewrite IH, skipped_of_app; simpl.
      * now rewrite app_nil_r.
      * now rewrite <- app_assoc.
    + cbn [add_teacher]. rewrite IH, skipped_of_app. simpl.
      now rewrite <- app_assoc.
Qed.

Lemma last_record_Some (k : pystr) (ts : list record) (fs : list pyval) :
  last_record db k ts = Some fs ->
  In (RSeq fs) ts /\ (4 <= length fs)%nat /\ k = surname_of db fs.
Proof.
  induction ts as [|t ts IH]; simpl; [easy|].
  destruct (last_record db k ts) as [fs'|].
  - intros [= ->]. destruct (IH eq_refl) as (H1 & H2 & H3). auto.
  - destruct t as [fs'|v]; [|easy].
    unfold indexable. destruct (4 <=? length fs')%nat eqn:L; cbn [andb]; [|easy].
    destruct (str_eqb (surname_of db fs') k) eqn:E; [|easy].
    intros [= ->]. apply str_eqb_eq in E. apply Nat.leb_le in L. auto.
Qed.

Lemma last_record_exists (ts : list record) (fs : list pyval) :
  In (RSeq fs) ts -> (4 <= length fs)%nat ->
  exists fs', last_record db (surname_of db fs) ts = Some fs'.
Proof.
  induction ts as [|t ts IH]; simpl; [easy|].
  intros [-> | Hin] L.
  - destruct (last_record db _ ts) as [fs'|]; [now exists fs'|].
    unfold indexable. apply Nat.leb_le in L. rewrite L, str_eqb_refl.
    now exists fs.
  - destruct (IH Hin L) as (fs' & ->). now exists fs'.
Qed.

Lemma set_teacher_surnames_fold (ts : list record) :
  fst (set_teacher_surnames db ts) = fst (fold_left (add_teacher db) ts ([], []))
  /\ skipped_of (snd (set_teacher_surnames db ts)) =
     skipped_of (snd (fold_left (add_teacher db) ts ([], []))).
Proof.
  unfold set_teacher_surnames. destruct ts as [|t ts]; [easy|].
  destruct (fold_left _ _ _) as [d l]. simpl.
  rewrite skipped_of_app. simpl. now rewrite app_nil_r.
Qed.

Lemma index_keys (teachers_list : list record) (k : pystr) :
  In k (map fst (fst (set_teacher_surnames db teachers_list))) <->
  exists fs, In (RSeq fs) teachers_list /\ (4 <= length fs)%nat
             /\ k = surname_of db fs.
Proof.
  destruct (set_teacher_surnames_fold teachers_list) as [-> _].
  rewrite assoc_In_keys. split.
  - intros (v & Hv). rewrite add_teachers_assoc in Hv. simpl in Hv.
    destruct (last_record db k teachers_list) as [fs|] eqn:E; [|easy].
    exists fs. now apply last_record_Some.
  - intros (fs & Hin & L & ->).
    destruct (last_record_exists _ _ Hin L) as (fs' & E).
    exists (full_name_of fs'). now rewrite add_teachers_assoc, E.
Qed.

(** The keys after the loop of lines 62-79, from any state: those that were
    there, then the new surnames, each where it comes first. *)
Lemma add_teachers_keys (ts : list record) (d : roster) (l : log)
    (seen : list pystr) :
  (forall k, mem k seen = mem k (map fst d)) ->
  map fst (fst (fold_left (add_teacher db) ts (d, l))) =
  map fst d ++ first_occurrences_from seen (indexed_surnames db ts).
Proof.
  revert d l seen; induction ts as [|t ts IH]; intros d l seen Hseen.
  - simpl. now rewrite app_nil_r.
  - cbn [fold_left]. unfold indexed_surnames. cbn [flat_map].
    fold (indexed_surnames db ts). destruct t as [fs|v].
    + rewrite add_teacher_seq. cbn [indexable].
      destruct (4 <=? length fs)%nat; [|now apply IH].
      cbn [app first_occurrences_from]. rewrite (Hseen (surname_of db fs)).
      pose proof (dict_set_keys (surname_of db fs) (full_name_of fs) d) as K.
      destruct (mem (surname_of db fs) (map fst d)) eqn:M.
      * rewrite (IH _ _ seen); [now rewrite K|].
        intros k. now rewrite K.
      * rewrite (IH _ _ (surname_of db fs :: seen)).
        -- now rewrite K, <- app_assoc.
        -- intros k. rewrite K. unfold mem in *. rewrite existsb_app.
           cbn [existsb]. rewrite Hseen, orb_false_r. apply orb_comm.
    + now apply IH.
Qed.

Lemma index_order (teachers_list : list record) :
  map fst (fst (set_teacher_surnames db teachers_list)) =
  first_occurrences (indexed_surnames db teachers_list).
Proof.
  destruct (set_teacher_surnames_fold teachers_list) as [-> _].
  now apply (add_teachers_keys teachers_list [] [] []).
Qed.

(** C4, as the code has it.  The index holds exactly the lower-cased
    surnames (field 1) of the records that are lists or tuples of four
    fields or more; every other record, and no other, is named by a
    warning of the log, in the order of the input.  The function is total:
    no input makes it raise. *)
Theorem set_teacher_surnames_indexes (teachers_list : list record) :
  (forall k, In k (map fst (fst (set_teacher_surnames db teachers_list))) <->
             exists fs, In (RSeq fs) teachers_list /\ (4 <= length fs)%nat
                        /\ k = surname_of db fs)
  /\ skipped_of (snd (set_teacher_surnames db teachers_list)) =
     filter (fun t => negb (indexable t)) teachers_list.
Proof.
  split; [apply index_keys|].
  destruct (set_teacher_surnames_fold teachers_list) as [_ ->].
  now rewrite add_teachers_skipped.
Qed.

(** *** Case mapping and containment *)

Lemma lower_app (a b : pystr) : lower db (a ++ b) = lower db a ++ lower db b.
Proof. apply flat_map_app. Qed.

Lemma contains_lower (p s : pystr) :
  contains p s = true -> contains (lower db p) (lower db s) = true.
Proof.
  rewrite !contains_spec. intros (a & b & ->).
  exists (lower db a), (lower db b). now rewrite !lower_app.
Qed.

Lemma lower_fixed_str (s : pystr) :
  Forall (fun c => tolower db c = [c]) s -> lower db s = s.
Proof.
  induction 1 as [|c s Hc _ IH]; [easy|].
  change (lower db (c :: s)) with (tolower db c ++ lower db s).
  now rewrite Hc, IH.
Qed.

Lemma lower_all_fixed (db_ok : chardb_ok db) (s : pystr) :
  Forall (fun c => tolower db c = [c]) (lower db s).
Proof.
  apply Forall_forall. intros c' H. apply in_flat_map in H.
  destruct H as (c & _ & H). now apply (lower_fixed db db_ok c).
Qed.

Lemma lower_lower (db_ok : chardb_ok db) (s : pystr) :
  lower db (lower db s) = lower db s.
Proof. now apply lower_fixed_str, lower_all_fixed. Qed.

Lemma surname_of_lower (db_ok : chardb_ok db) (fs : list pyval) :
  lower db (surname_of db fs) = surname_of db fs.
Proof. now apply lower_lower. Qed.

(** *** The roster step *)

Lemma roster_hit_spec (d : roster) (word : pystr) :
  roster_hit db d word =
  match find (fun k => contains k (lower db word)) (map fst d) with
  | Some k => assoc k d
  | None => None
  end.
Proof.
  unfold roster_hit. induction d as [|[k v] d IH]; [easy|].
  cbn [find map fst assoc].
  destruct (contains k (lower db word)) eqn:E.
  - now rewrite str_eqb_refl.
  - rewrite IH.
    destruct (find _ (map fst d)) as [k0|] eqn:F; [|easy].
    apply find_some in F. destruct F as [_ F].
    destruct (str_eqb k0 k) eqn:K; [|easy].
    apply str_eqb_eq in K. congruence.
Qed.

Lemma roster_hit_None (d : roster) (word : pystr) :
  roster_hit db d word = None <->
  find (fun k => contains k (lower db word)) (map fst d) = None.
Proof.
  rewrite roster_hit_spec.
  destruct (find _ _) as [k|] eqn:F; [|easy].
  apply find_some in F. destruct F as [F _].
  apply assoc_In_keys in F. destruct F as (v & ->). easy.
Qed.

(** The roster step decides as soon as it finds a name. *)
Lemma categorize_query_roster (surnames : roster) (text : pystr) (r : result) :
  step_roster db surnames (keywords_of db morph (lower db text)) = Some r ->
  categorize_query db morph disc_iter surnames (VStr text) = r.
Proof.
  intros H. unfold categorize_query, categorize_body. simpl.
  now rewrite H.
Qed.

Lemma step_roster_Some (d : roster) (keywords : list pystr) (r : result) :
  step_roster db d keywords = Some r <->
  exists pre word post k full_name,
    keywords = pre ++ word :: post
    /\ (forall w, In w pre ->
                  find (fun k => contains k (lower db w)) (map fst d) = None)
    /\ find (fun k => contains k (lower db word)) (map fst d) = Some k
    /\ assoc k d = Some full_name
    /\ r = (teacher, [full_name]).
Proof.
  unfold step_roster. split.
  - destruct (find_map _ _) as [n|] eqn:E; [|easy]. intros [= <-].
    apply find_map_Some in E. destruct E as (pre & word & post & -> & Hw & Hpre).
    rewrite roster_hit_spec in Hw.
    destruct (find _ (map fst d)) as [k|] eqn:F; [|easy].
    exists pre, word, post, k, n. repeat split; try easy.
    intros w Hin. now apply roster_hit_None, Hpre.
  - intros (pre & word & post & k & n & -> & Hpre & F & A & ->).
    replace (find_map (roster_hit db d) (pre ++ word :: post)) with (Some n);
      [easy|].
    symmetry. apply find_map_Some. exists pre, word, post.
    repeat split; try easy.
    + now rewrite roster_hit_spec, F.
    + intros w Hin. now apply roster_hit_None, Hpre.
Qed.

(** C10.  The keys of the index are the lower-cased surnames of the
    indexed records, without repetition and each at the place of its first
    record in the input, so that the first key with a given property is
    the surname of the first indexed record with it; the name stored under
    a key is that of the last record indexed under it; and whenever the
    roster step of [categorize_query] finds a name, the answer is
    [('teacher', [name])] where the name is that of the last record of the
    first key, in insertion order, that is part of the first matching
    keyword. *)
Theorem later_record_overwrites (teachers_list : list record) :
  let d := fst (set_teacher_surnames db teachers_list) in
  map fst d = first_occurrences (indexed_surnames db teachers_list)
  /\ (forall P, find P (map fst d)
                = find P (indexed_surnames db teachers_list))
  /\ NoDup (map fst d)
  /\ (forall k, assoc k d =
                option_map full_name_of (last_record db k teachers_list))
  /\ (forall text r,
        step_roster db d (keywords_of db morph (lower db text)) = Some r ->
        categorize_query db morph disc_iter d (VStr text) = r
        /\ exists pre word post k fs,
             keywords_of db morph (lower db text) = pre ++ word :: post
             /\ (forall w, In w pre ->
                    find (fun k => contains k (lower db w)) (map fst d) = None)
             /\ find (fun k => contains k (lower db word)) (map fst d) = Some k
             /\ last_record db k teachers_list = Some fs
             /\ r = (teacher, [full_name_of fs])).
Proof.
  intros d.
  assert (A : forall k, assoc k d =
                        option_map full_name_of (last_record db k teachers_list)).
  { intros k. unfold d.
    destruct (set_teacher_surnames_fold teachers_list) as [-> _].
    rewrite add_teachers_assoc.
    now destruct (last_record db k teachers_list). }
  split; [apply index_order|].
  split.
  { intros P. unfold d. rewrite index_order.
    now apply find_first_occurrences_from. }
  split; [|split; [exact A|]].
  - unfold d. destruct (set_teacher_surnames_fold teachers_list) as [-> _].
    apply add_teachers_NoDup. constructor.
  - intros text r H. split; [now apply categorize_query_roster|].
    apply step_roster_Some in H.
    destruct H as (pre & word & post & k & n & E & Hpre & F & Hk & ->).
    rewrite A in Hk.
    destruct (last_record db k teachers_list) as [fs|] eqn:L; [|easy].
    injection Hk as <-. now exists pre, word, post, k, fs.
Qed.

(** C2.  When the lower-cased text holds a locative marker and some
    normalized token has an indexed surname as a substring, the answer is
    [('teacher', [name])], never a navigation answer: the name is the one
    the index stores for the first token that a surname is part of (under
    the first such surname in insertion order). *)
Theorem roster_match_dominates_navigation
    (db_ok : chardb_ok db) (teachers_list : list record)
    (text token surname : pystr) :
  let d := fst (set_teacher_surnames db teachers_list) in
  existsb (fun m => contains m (lower db text)) locative_markers = true ->
  In token (extract_keywords db morph (lower db text)) ->
  In surname (map fst d) ->
  contains surname token = true ->
  exists pre word post k full_name,
    extract_keywords db morph (lower db text) = pre ++ word :: post
    /\ (forall w, In w pre ->
                  find (fun k => contains k (lower db w)) (map fst d) = None)
    /\ find (fun k => contains k (lower db word)) (map fst d) = Some k
    /\ assoc k d = Some full_name
    /\ categorize_query db morph disc_iter d (VStr text) = (teacher, [full_name])
    /\ fst (categorize_query db morph disc_iter d (VStr text)) <> navigation.
Proof.
  intros d _ Htok Hkey Hsub.
  assert (Hhit : roster_hit db d token <> None).
  { rewrite roster_hit_None. intros F.
    pose proof (find_none _ _ F _ Hkey) as Hno. simpl in Hno.
    apply contains_lower in Hsub.
    apply index_keys in Hkey. destruct Hkey as (fs & _ & _ & ->).
    rewrite (surname_of_lower db_ok) in Hsub. congruence. }
  destruct (find_map (roster_hit db d) (extract_keywords db morph (lower db text)))
    as [n|] eqn:E.
  2:{ exfalso. apply Hhit. now apply (proj1 (find_map_None _ _) E). }
  apply find_map_Some in E.
  destruct E as (pre & word & post & Ekw & Hw & Hpre).
  rewrite roster_hit_spec in Hw.
  destruct (find _ (map fst d)) as [k|] eqn:F; [|easy].
  assert (Hpre' : forall w, In w pre ->
            find (fun k => contains k (lower db w)) (map fst d) = None).
  { intros w Hin. now apply roster_hit_None, Hpre. }
  assert (C : categorize_query db morph disc_iter d (VStr text) = (teacher, [n])).
  { apply categorize_query_roster. apply step_roster_Some.
    exists pre, word, (post ++ pattern_names db (lower db text)), k, n.
    repeat split; try easy.
    unfold keywords_of. now rewrite Ekw, <- app_assoc. }
  exists pre, word, post, k, n. repeat split; try easy.
  rewrite C. now vm_compute.
Qed.

(** *** The dispatcher *)

(** C9.  When the text does not start with '/' and [categorize_query]
    returns an empty list, [process_query] answers with the clarification
    prompt, whatever the category and whatever the formatters would say.
    In particular the query "где?", when lower-casing leaves it as it is and
    normalization leaves no keyword, is classified [('navigation', [])] and
    answered with the prompt. *)
Theorem process_query_clarifies (surnames : roster) :
  (forall text category,
     startswith (u "/") text = false ->
     categorize_query db morph disc_iter surnames (VStr text) = (category, []) ->
     process_query db morph disc_iter replies surnames (VStr text)
     = Some CLARIFY)
  /\ (lower db (u "где?") = u "где?" ->
      extract_keywords db morph (u "где?") = [] ->
      categorize_query db morph disc_iter surnames (VStr (u "где?"))
      = (navigation, [])
      /\ process_query db morph disc_iter replies surnames (VStr (u "где?"))
         = Some CLARIFY).
Proof.
  assert (G : forall text category,
     startswith (u "/") text = false ->
     categorize_query db morph disc_iter surnames (VStr text) = (category, []) ->
     process_query db morph disc_iter replies surnames (VStr text)
     = Some CLARIFY).
  { intros text category Hcmd Hcat. unfold process_query.
    cbn [as_str bind]. now rewrite Hcmd, Hcat. }
  split; [exact G|]. intros Hlow Hkw.
  assert (C : categorize_query db morph disc_iter surnames (VStr (u "где?"))
              = (navigation, [])).
  { unfold categorize_query, categorize_body. cbn [as_str bind try_except].
    rewrite Hlow. unfold keywords_of. rewrite Hkw.
    replace (pattern_names db (u "где?")) with (@nil pystr) by reflexivity.
    reflexivity. }
  split; [exact C|]. now apply (G _ navigation).
Qed.

(** *** The discipline step *)

Lemma discipline_kw_nonempty (d : pystr) : In d discipline_kw -> d <> [].
Proof.
  intros H ->. apply mem_In in H. now vm_compute in H.
Qed.

Lemma capitalize_nonempty (db_ok : chardb_ok db) (d : pystr) :
  d <> [] -> capitalize db d <> [].
Proof.
  destruct d as [|c r]; [easy|]. intros _ E. simpl in E.
  apply app_eq_nil in E. now apply (title_nonempty db db_ok c).
Qed.

(** The shortcut of lines 116-121, when it applies. *)
Lemma teaching_shortcut_Some (db_ok : chardb_ok db)
    (Hiter : iterates_disciplines disc_iter) (text_lower token course : pystr) :
  lower db text_lower = text_lower ->
  existsb (fun m => contains m text_lower) teaching_markers = true ->
  In token (extract_keywords db morph text_lower) ->
  In course discipline_kw ->
  contains course token = true ->
  exists pre word post d,
    extract_keywords db morph text_lower = pre ++ word :: post
    /\ (forall w d', In w pre -> In d' discipline_kw -> contains d' w = false)
    /\ In d discipline_kw
    /\ contains d word = true
    /\ teaching_shortcut db morph disc_iter text_lower = Some (capitalize db d).
Proof.
  intros Hlow Hmark Htok Hcourse Hsub. unfold teaching_shortcut.
  rewrite Hlow, Hmark.
  set (f := fun word => option_map (capitalize db)
                          (find (fun d => contains d word) disc_iter)).
  destruct (find_map f (extract_keywords db morph text_lower)) as [c|] eqn:E.
  - apply find_map_Some in E.
    destruct E as (pre & word & post & Ekw & Hw & Hpre). unfold f in Hw.
    destruct (find _ disc_iter) as [d|] eqn:F; [|easy].
    injection Hw as <-. apply find_some in F. destruct F as [Hd Hc].
    exists pre, word, post, d. repeat split; try easy.
    + intros w d' Hin Hd'. specialize (Hpre w Hin). unfold f in Hpre.
      destruct (find _ disc_iter) eqn:F'; [easy|].
      apply (find_none _ _ F').
      eapply Permutation_in; [symmetry; exact Hiter | exact Hd'].
    + eapply Permutation_in; [exact Hiter | exact Hd].
  - exfalso. pose proof (proj1 (find_map_None _ _) E token Htok) as Hn.
    unfold f in Hn. destruct (find _ disc_iter) eqn:F; [easy|].
    assert (Hin : In course disc_iter)
      by (eapply Permutation_in; [symmetry; exact Hiter | exact Hcourse]).
    pose proof (find_none _ _ F _ Hin) as Hc. simpl in Hc. congruence.
Qed.

(** The answer of a query that gets as far as the discipline step. *)
Lemma categorize_query_discipline (surnames : roster) (text : pystr) :
  reaches_discipline_step db morph surnames text ->
  categorize_query db morph disc_iter surnames (VStr text) =
  match
    orelse (step_discipline db morph disc_iter (lower db text))
      (orelse (step_phrases (lower db text) (keywords_of db morph (lower db text)))
         (orelse (step_exact (keywords_of db morph (lower db text)))
                 (step_fuzzy (keywords_of db morph (lower db text)))))
  with
  | Some r => r
  | None => (unknown, keywords_of db morph (lower db text))
  end.
Proof.
  intros (H1 & H2 & H3 & H4). unfold categorize_query, categorize_body.
  cbn [as_str bind try_except]. cbv zeta.
  now rewrite H1, H2, H3, H4.
Qed.

(** C1, as the code has it.  The teaching-context shortcut belongs to the
    discipline step, which comes after the roster, navigation, teacher-noun
    and capitalized-word steps: when none of those decides, the lower-cased
    text holds a teaching marker and some normalized token has a course
    name as a substring, the answer is [('discipline', [name])], where the
    name is the capitalized form of a course name that is part of the
    first such token. *)
Theorem teaching_shortcut_in_discipline_step
    (db_ok : chardb_ok db) (Hiter : iterates_disciplines disc_iter)
    (surnames : roster) (text token course : pystr) :
  reaches_discipline_step db morph surnames text ->
  existsb (fun m => contains m (lower db text)) teaching_markers = true ->
  In token (extract_keywords db morph (lower db text)) ->
  In course discipline_kw ->
  contains course token = true ->
  exists pre word post d,
    extract_keywords db morph (lower db text) = pre ++ word :: post
    /\ (forall w d', In w pre -> In d' discipline_kw -> contains d' w = false)
    /\ In d discipline_kw
    /\ contains d word = true
    /\ categorize_query db morph disc_iter surnames (VStr text)
       = (discipline, [capitalize db d]).
Proof.
  intros Hreach Hmark Htok Hcourse Hsub.
  destruct (teaching_shortcut_Some db_ok Hiter (lower db text) token course
              (lower_lower db_ok text) Hmark Htok Hcourse Hsub)
    as (pre & word & post & d & Ekw & Hpre & Hd & Hc & Hs).
  exists pre, word, post, d. repeat split; try easy.
  rewrite (categorize_query_discipline surnames text Hreach).
  unfold step_discipline, find_discipline_in_text. rewrite Hs. cbn [orelse].
  destruct (capitalize db d) as [|c r] eqn:E; [|easy].
  exfalso. apply (capitalize_nonempty db_ok d (discipline_kw_nonempty d Hd) E).
Qed.

(** *** The fuzzy step *)

Lemma fuzzy_shares4 (token category_word : pystr) :
  fuzzy token category_word = shares4 token category_word.
Proof. reflexivity. Qed.

Lemma overlap_at_most_3_fuzzy (token category_word : pystr) :
  overlap_at_most_3 token category_word = true ->
  fuzzy token category_word = false.
Proof.
  unfold overlap_at_most_3, fuzzy. rewrite andb_true_iff, !orb_true_iff.
  rewrite !negb_true_iff, !Nat.leb_le. intros [[H1|H1] [H2|H2]].
  - now rewrite H1, H2, !andb_false_r.
  - rewrite H1, andb_false_r. simpl.
    replace (3 <? length category_word)%nat with false; [easy|].
    symmetry. apply Nat.ltb_ge. lia.
  - rewrite H2, andb_false_r, orb_false_r.
    replace (3 <? length token)%nat with false; [easy|].
    symmetry. apply Nat.ltb_ge. lia.
  - replace (3 <? length token)%nat with false
      by (symmetry; apply Nat.ltb_ge; lia).
    replace (3 <? length category_word)%nat with false
      by (symmetry; apply Nat.ltb_ge; lia). easy.
Qed.

(** C8, as the code has it.  For a query that gets as far as the fuzzy
    step: when a keyword and a trigger word of a category share four
    characters or more (one, at least four characters long, is part of the
    other) and no category earlier in the order of the table has such a
    pair, the answer is that category with the keywords; and when every
    keyword and trigger word overlap by three characters at most (two, for
    instance), the step maps nothing and the answer is 'unknown'. *)
Theorem fuzzy_step_first_category (surnames : roster) (text : pystr) :
  reaches_fuzzy_step db morph disc_iter surnames text ->
  let keywords := keywords_of db morph (lower db text) in
  (forall earlier cat later token category_word,
     categories = earlier ++ cat :: later ->
     In token keywords ->
     In category_word (snd cat) ->
     shares4 token category_word = true ->
     forallb (fun c => negb (category_shares4 keywords c)) earlier = true ->
     categorize_query db morph disc_iter surnames (VStr text)
     = (fst cat, keywords))
  /\ (forallb (fun cat =>
                 forallb (fun token => forallb (overlap_at_most_3 token) (snd cat))
                         keywords) categories = true ->
      categorize_query db morph disc_iter surnames (VStr text)
      = (unknown, keywords)).
Proof.
  intros (Hreach & H5 & H6 & H7) keywords.
  rewrite (categorize_query_discipline surnames text Hreach).
  cbv zeta in H5, H6, H7. rewrite H5, H6, H7. cbn [orelse].
  fold keywords. split.
  - intros earlier cat later token w Hcat Htok Hw Hs Hearlier.
    unfold step_fuzzy.
    replace (find _ categories) with (Some cat); [easy|].
    symmetry. apply find_Some_split. exists earlier, later.
    repeat split; try easy.
    + apply existsb_exists. exists token. split; [easy|].
      apply existsb_exists. now exists w.
    + intros c Hc. rewrite forallb_forall in Hearlier.
      apply Hearlier in Hc. now apply negb_true_iff in Hc.
  - intros Hall. unfold step_fuzzy.
    replace (find _ categories) with (@None (pystr * list pystr)); [easy|].
    symmetry. apply find_None_all. intros cat Hcat.
    rewrite forallb_forall in Hall. specialize (Hall cat Hcat).
    rewrite forallb_forall in Hall.
    destruct (existsb _ keywords) eqn:E; [|easy]. exfalso.
    apply existsb_exists in E. destruct E as (token & Htok & E).
    apply existsb_exists in E. destruct E as (w & Hw & E).
    specialize (Hall token Htok). rewrite forallb_forall in Hall.
    rewrite (overlap_at_most_3_fuzzy _ _ (Hall w Hw)) in E. easy.
Qed.


(** *** Matching and searching *)

Lemma greedy_inv (p : char -> bool) (k : pystr -> option mres) (s : pystr)
    (r : mres) :
  greedy p false k s = Some r ->
  exists ws tail m,
    s = ws ++ tail /\ forallb p ws = true /\ k tail = Some m
    /\ r = (ws ++ fst m, snd m).
Proof.
  revert r; induction s as [|c s IH]; intros r; simpl.
  - intros H. exists [], [], r. now destruct r.
  - destruct (p c) eqn:Pc.
    + destruct (greedy p false k s) as [m0|] eqn:G.
      * intros [= <-]. destruct (IH m0 eq_refl) as (ws & tail & m & -> & Hws & Hk & ->).
        exists (c :: ws), tail, m. simpl. now rewrite Pc, Hws.
      * intros H. exists [], (c :: s), r. now destruct r.
    + intros H. exists [], (c :: s), r. now destruct r.
Qed.

Lemma greedy_run (p : char -> bool) (k : pystr -> option mres)
    (ws tail : pystr) (m : mres) :
  forallb p ws = true ->
  match tail with [] => True | c :: _ => p c = false end ->
  k tail = Some m ->
  greedy p false k (ws ++ tail) = Some (ws ++ fst m, snd m).
Proof.
  intros Hws Htail Hk. induction ws as [|c ws IH]; simpl.
  - destruct tail as [|c t]; simpl.
    + rewrite Hk. now destruct m.
    + rewrite Htail, Hk. now destruct m.
  - simpl in Hws. apply andb_true_iff in Hws. destruct Hws as [Pc Hws].
    now rewrite Pc, (IH Hws).
Qed.

Lemma search_Some_inv (r : regex) (s : pystr) (m : mres) :
  search db r s = Some m ->
  exists pre rest,
    s = pre ++ rest /\ rmatch db r rest = Some m
    /\ forall p q, pre = p ++ q -> q <> [] -> rmatch db r (q ++ rest) = None.
Proof.
  induction s as [|c s IH]; simpl.
  - destruct (rmatch db r []) eqn:E; [|easy]. intros [= ->].
    exists [], []. repeat split; try easy.
    intros p q Hp Hq. now destruct p, q.
  - destruct (rmatch db r (c :: s)) eqn:E.
    + intros [= ->]. exists [], (c :: s). repeat split; try easy.
      intros p q Hp Hq. now destruct p, q.
    + intros H. destruct (IH H) as (pre & rest & -> & Hm & Hnone).
      exists (c :: pre), rest. repeat split; try easy.
      intros p q Hp Hq. destruct p as [|c' p]; simpl in Hp.
      * subst q. exact E.
      * injection Hp as -> ->. now apply (Hnone p q).
Qed.

Lemma search_leftmost (r : regex) (pre rest : pystr) (m : mres) :
  rmatch db r rest = Some m ->
  (forall p q, pre = p ++ q -> q <> [] -> rmatch db r (q ++ rest) = None) ->
  search db r (pre ++ rest) = Some m.
Proof.
  intros Hm. induction pre as [|c pre IH]; intros Hnone.
  - simpl. destruct rest; simpl; now rewrite Hm.
  - assert (H0 : rmatch db r (c :: pre ++ rest) = None)
      by (now apply (Hnone [] (c :: pre))).
    cbn [app search]. rewrite H0.
    apply IH. intros p q -> Hq. now apply (Hnone (c :: p) q).
Qed.

Lemma search_None_inv (r : regex) (s pre rest : pystr) :
  search db r s = None -> s = pre ++ rest -> rmatch db r rest = None.
Proof.
  revert pre; induction s as [|c s IH]; intros pre; simpl.
  - destruct (rmatch db r []) eqn:E; [easy|]. intros _ H.
    symmetry in H. apply app_eq_nil in H. now destruct H as [_ ->].
  - destruct (rmatch db r (c :: s)) eqn:E; [easy|]. intros H Hs.
    destruct pre as [|c' pre]; simpl in Hs.
    + now subst rest.
    + injection Hs as -> ->. now apply (IH pre).
Qed.

(** A match of the pattern of line 124 is a module code at the start of
    the text. *)
Lemma rmatch_mdk_inv (s : pystr) (r : mres) :
  rmatch db mdk_pattern s = Some r ->
  exists rest, s = fst r ++ rest /\ mdk_code db (fst r) /\ snd r = [].
Proof.
  unfold mdk_pattern.
  destruct s as [|l1 [|l2 [|l3 s]]]; cbn [rmatch one star it_atom it_quant it_group accepts option_map];
    try easy.
  - now destruct (ci_eq db 1084 l1).
  - destruct (ci_eq db 1084 l1); [|easy]. now destruct (ci_eq db 1076 l2).
  - destruct (ci_eq db 1084 l1) eqn:E1; [|easy].
    destruct (ci_eq db 1076 l2) eqn:E2; [|easy].
    destruct (ci_eq db 1082 l3) eqn:E3; [|easy]. cbn [option_map].
    destruct (greedy _ _ _ s) as [m0|] eqn:G; [|easy].
    intros [= <-]. apply greedy_inv in G.
    destruct G as (ws & tail & m & -> & Hws & Hk & ->).
    destruct tail as [|d1 [|d2 [|dot [|d3 [|d4 rest]]]]];
      cbn [rmatch it_atom it_quant it_group accepts option_map] in Hk;
      try easy;
      repeat match type of Hk with
             | context [if ?b then _ else _] => destruct b eqn:?; [|easy]
             end; try easy.
    injection Hk as <-. apply N.eqb_eq in Heqb1. subst dot.
    exists rest. cbn. split; [|split; [|easy]].
    + now rewrite <- app_assoc.
    + now exists l1, l2, l3, ws, d1, d2, d3, d4.
Qed.


Lemma space_not_decimal (db_ok : chardb_ok db) (c : char) :
  isdecimal db c = true -> isspace db c = false.
Proof.
  intros Hd. destruct (isspace db c) eqn:Hs; [|easy].
  apply (space_not_word db db_ok) in Hs.
  apply (decimal_is_word db db_ok) in Hd. congruence.
Qed.

(** A module code at the start of the text is what the pattern matches
    there, and nothing else. *)
Lemma rmatch_mdk_code (db_ok : chardb_ok db) (m rest : pystr) :
  mdk_code db m -> rmatch db mdk_pattern (m ++ rest) = Some (m, []).
Proof.
  intros (l1 & l2 & l3 & ws & d1 & d2 & d3 & d4 & -> & E1 & E2 & E3 & Hws
          & D1 & D2 & D3 & D4).
  unfold mdk_pattern.
  cbn [app rmatch one star it_atom it_quant it_group accepts option_map].
  rewrite E1, E2, E3. rewrite <- app_assoc.
  rewrite (greedy_run (isspace db) _ ws _ ([d1; d2; 46; d3; d4], [])); try easy.
  - cbn [app]. now apply space_not_decimal.
  - cbn [app rmatch it_atom it_quant it_group accepts option_map].
    now rewrite D1, D2, D3, D4.
Qed.

Lemma upper_app (a b : pystr) : upper db (a ++ b) = upper db a ++ upper db b.
Proof. apply flat_map_app. Qed.

Lemma remove_spaces_app (a b : pystr) :
  remove_spaces (a ++ b) = remove_spaces a ++ remove_spaces b.
Proof. apply filter_app. Qed.

Lemma remove_spaces_no_space (s : pystr) : ~ In SPACE (remove_spaces s).
Proof.
  intros H. apply filter_In in H. destruct H as [_ H].
  now rewrite N.eqb_refl in H.
Qed.

Lemma mdk_code_upper (db_ok : chardb_ok db) (m : pystr) :
  mdk_code db m ->
  exists tail, remove_spaces (upper db m) = u "МДК" ++ tail.
Proof.
  intros (l1 & l2 & l3 & ws & d1 & d2 & d3 & d4 & -> & E1 & E2 & E3 & _).
  destruct (mdk_letters db db_ok 1084) as [_ U1]; [simpl; auto 12|].
  destruct (mdk_letters db db_ok 1076) as [_ U2]; [simpl; auto 12|].
  destruct (mdk_letters db db_ok 1082) as [_ U3]; [simpl; auto 12|].
  exists (remove_spaces (upper db (ws ++ [d1; d2; 46; d3; d4]))).
  change (l1 :: l2 :: l3 :: ws ++ [d1; d2; 46; d3; d4])
    with ([l1] ++ [l2] ++ [l3] ++ (ws ++ [d1; d2; 46; d3; d4])).
  rewrite !upper_app, !remove_spaces_app.
  unfold upper at 1 2 3. cbn [flat_map]. rewrite !app_nil_r.
  now rewrite (U1 _ E1), (U2 _ E2), (U3 _ E3).
Qed.

(** C5, as the code has it.  The extractor looks for the letters "мдк" in
    any case, then white space or none, two digits, '.', two digits: a text
    that holds such a code yields a result, and every result is the
    leftmost such code of the text in upper case with the characters U+0020
    removed; it starts with "МДК" and holds no space. *)
Theorem find_mdk_matches_module_codes (db_ok : chardb_ok db) (text : pystr) :
  (forall pre m post,
     text = pre ++ m ++ post -> mdk_code db m ->
     exists r, find_mdk db text = Some r)
  /\ (forall r,
       find_mdk db text = Some r ->
       exists pre m post,
         text = pre ++ m ++ post /\ mdk_code db m
         /\ (forall pre' m' post',
               text = pre' ++ m' ++ post' -> mdk_code db m' ->
               (length pre <= length pre')%nat)
         /\ r = remove_spaces (upper db m)
         /\ ~ In SPACE r
         /\ exists tail, r = u "МДК" ++ tail).
Proof.
  unfold find_mdk. split.
  - intros pre m post Htext Hm.
    destruct (search db mdk_pattern text) as [r|] eqn:S; [now eexists|].
    pose proof (rmatch_mdk_code db_ok m post Hm) as Hr.
    pose proof (search_None_inv _ _ pre (m ++ post) S Htext) as Hn.
    congruence.
  - intros r. destruct (search db mdk_pattern text) as [m0|] eqn:S; [|easy].
    intros [= <-]. apply search_Some_inv in S.
    destruct S as (pre & rest & -> & Hm & Hnone).
    apply rmatch_mdk_inv in Hm. destruct Hm as (post & -> & Hcode & _).
    exists pre, (fst m0), post. repeat split; try easy.
    + intros pre' m' post' E Hm'. apply app_eq_app in E.
      destruct E as (l & [[-> E] | [-> E]]).
      * destruct l as [|c l]; [rewrite app_nil_r; lia|].
        pose proof (rmatch_mdk_code db_ok m' post' Hm') as Hr.
        rewrite E in Hr.
        rewrite (Hnone pre' (c :: l) eq_refl) in Hr; easy.
      * rewrite length_app. lia.
    + apply remove_spaces_no_space.
    + now apply mdk_code_upper.
Qed.


(** *** The code "мдк 01.01" *)

Lemma caseless_below_A (db_ok : chardb_ok db) (s : pystr) :
  Forall (fun c => c < 65) s -> lower db s = s /\ upper db s = s.
Proof.
  induction 1 as [|c s Hc _ [IHl IHu]]; [easy|].
  destruct (ascii_caseless db db_ok c Hc) as [Hl Hu].
  change (lower db (c :: s)) with (tolower db c ++ lower db s).
  change (upper db (c :: s)) with (toupper db c ++ upper db s).
  now rewrite Hl, Hu, IHl, IHu.
Qed.

Lemma run_of_spaces (db_ok : chardb_ok db) (ws : pystr) :
  forallb (N.eqb SPACE) ws = true ->
  Forall (fun c => c < 65) ws /\ forallb (isspace db) ws = true
  /\ remove_spaces ws = [].
Proof.
  induction ws as [|c ws IH]; [easy|]. cbn [forallb].
  rewrite andb_true_iff, N.eqb_eq. intros [<- H].
  destruct (IH H) as (H1 & H2 & H3). repeat split.
  - constructor; [now vm_compute | easy].
  - now rewrite (space_is_space db db_ok).
  - exact H3.
Qed.

Lemma teaching_shortcut_None (Hiter : iterates_disciplines disc_iter)
    (text_lower : pystr) :
  lower db text_lower = text_lower ->
  (existsb (fun m => contains m text_lower) teaching_markers = false
   \/ forall w d, In w (extract_keywords db morph text_lower) ->
                  In d discipline_kw -> contains d w = false) ->
  teaching_shortcut db morph disc_iter text_lower = None.
Proof.
  intros Hlow H. unfold teaching_shortcut. rewrite Hlow.
  destruct (existsb _ teaching_markers) eqn:M; [|easy].
  destruct H as [H | H]; [easy|].
  apply find_map_None. intros w Hw.
  rewrite (find_None_all (fun d => contains d w) disc_iter); [easy|].
  intros d Hd. apply (H w d Hw).
  eapply Permutation_in; [exact Hiter | exact Hd].
Qed.

(** C6, as the code has it.  Let the text hold "мдк" in any letter case,
    then spaces or none, then "01.01"; let the query get as far as the
    discipline step without the teaching-context shortcut applying (no
    teaching marker, or no token with a course name in it), and let no
    module code begin earlier in the text.  Then the answer is
    [('discipline', ["МДК01.01"])]. *)
Theorem mdk_01_01_entity
    (db_ok : chardb_ok db) (Hiter : iterates_disciplines disc_iter)
    (surnames : roster) (text pre letters ws post : pystr) :
  text = pre ++ letters ++ ws ++ u "01.01" ++ post ->
  lower db letters = u "мдк" ->
  forallb (N.eqb SPACE) ws = true ->
  reaches_discipline_step db morph surnames text ->
  (existsb (fun m => contains m (lower db text)) teaching_markers = false
   \/ forall w d, In w (extract_keywords db morph (lower db text)) ->
                  In d discipline_kw -> contains d w = false) ->
  (forall pre' m' post',
     lower db text = pre' ++ m' ++ post' -> mdk_code db m' ->
     (length (lower db pre) <= length pre')%nat) ->
  categorize_query db morph disc_iter surnames (VStr text)
  = (discipline, [u "МДК01.01"]).
Proof.
  intros Htext Hletters Hws Hreach Hshort Hfirst.
  destruct (run_of_spaces db_ok ws Hws) as (Hlow & Hsp & Hrm).
  destruct (caseless_below_A db_ok ws Hlow) as [Lws Uws].
  assert (Hdig : Forall (fun c => c < 65) (u "01.01"))
    by (repeat constructor).
  destruct (caseless_below_A db_ok _ Hdig) as [Ld Ud].
  set (m := u "мдк" ++ ws ++ u "01.01").
  assert (Htl : lower db text = lower db pre ++ m ++ lower db post).
  { rewrite Htext, !lower_app, Hletters, Lws, Ld. unfold m.
    now rewrite <- !app_assoc. }
  destruct (mdk_letters db db_ok 1084) as [C1 U1]; [simpl; auto 12|].
  destruct (mdk_letters db db_ok 1076) as [C2 U2]; [simpl; auto 12|].
  destruct (mdk_letters db db_ok 1082) as [C3 U3]; [simpl; auto 12|].
  assert (Hcode : mdk_code db m).
  { exists 1084, 1076, 1082, ws, 48, 49, 48, 49.
    repeat split; try easy; apply (ascii_digit db db_ok); lia. }
  assert (Hmdk : find_mdk db (lower db text) = Some (u "МДК01.01")).
  { unfold find_mdk. rewrite Htl.
    rewrite (search_leftmost mdk_pattern (lower db pre) (m ++ lower db post)
               (m, [])).
    - cbn [option_map fst]. f_equal. unfold m.
      change (u "мдк") with ([1084] ++ [1076] ++ [1082]).
      rewrite <- !app_assoc, !upper_app, Uws, Ud, !remove_spaces_app, Hrm.
      unfold upper. cbn [flat_map]. rewrite !app_nil_r.
      now rewrite (U1 _ C1), (U2 _ C2), (U3 _ C3).
    - now apply rmatch_mdk_code.
    - intros p q Hp Hq.
      destruct (rmatch db mdk_pattern (q ++ m ++ lower db post)) as [r|] eqn:R;
        [|easy].
      exfalso. apply rmatch_mdk_inv in R.
      destruct R as (rest & E & Hr & _).
      assert (L : (length (lower db pre) <= length p)%nat).
      { apply (Hfirst p (fst r) rest); [|easy].
        now rewrite Htl, Hp, <- app_assoc, E. }
      rewrite Hp, length_app in L. destruct q; [easy | simpl in L; lia]. }
  rewrite (categorize_query_discipline surnames text Hreach).
  unfold step_discipline, find_discipline_in_text.
  rewrite (teaching_shortcut_None Hiter _ (lower_lower db_ok text) Hshort).
  now rewrite Hmdk.
Qed.


(** *** Splitting and joining *)

Lemma split_go_words (acc s : pystr) (w : pystr) :
  Forall (fun c => isspace db c = false) acc ->
  In w (split_go db acc s) ->
  w <> [] /\ forall c, In c w -> (In c acc \/ In c s) /\ isspace db c = false.
Proof.
  revert acc; induction s as [|c s IH]; intros acc Hacc; simpl.
  - destruct acc as [|a acc]; [easy|]. intros [<- | []]. split.
    + intros E. apply (f_equal (@length char)) in E.
      rewrite length_rev in E. easy.
    + intros x Hx. apply in_rev in Hx. split; [now left|].
      now apply (proj1 (Forall_forall _ _) Hacc).
  - destruct (isspace db c) eqn:Sc.
    + assert (R : In w (split_go db [] s) ->
                  w <> [] /\ forall x, In x w ->
                    (In x acc \/ In x (c :: s)) /\ isspace db x = false).
      { intros H. destruct (IH [] (Forall_nil _) H) as [Hn Hc].
        split; [easy|]. intros x Hx. destruct (Hc x Hx) as [[[]|Hs] Hsp].
        split; [right; now right | easy]. }
      destruct acc as [|a acc]; [exact R|]. intros [<- | H]; [|now apply R].
      split.
      * intros E. apply (f_equal (@length char)) in E.
        rewrite length_rev in E. easy.
      * intros x Hx. apply in_rev in Hx. split; [now left|].
        now apply (proj1 (Forall_forall _ _) Hacc).
    + intros H. destruct (IH (c :: acc) (Forall_cons _ Sc Hacc) H) as [Hn Hc].
      split; [easy|]. intros x Hx. destruct (Hc x Hx) as [[[<-|Ha]|Hs] Hsp];
        (split; [|easy]); [right; now left | now left | right; now right].
Qed.

Lemma split_go_word (acc w rest : pystr) :
  forallb (fun c => negb (isspace db c)) w = true ->
  split_go db acc (w ++ rest) = split_go db (rev w ++ acc) rest.
Proof.
  revert acc; induction w as [|c w IH]; intros acc; [easy|].
  cbn [forallb app split_go]. rewrite andb_true_iff, negb_true_iff.
  intros [Sc Hw]. rewrite Sc, (IH _ Hw). cbn [rev]. now rewrite <- app_assoc.
Qed.

Lemma split_join (db_ok : chardb_ok db) (ts : list pystr) :
  Forall (fun t => t <> [] /\ forallb (fun c => negb (isspace db c)) t = true) ts ->
  split db (join_sp ts) = ts.
Proof.
  unfold split. induction 1 as [|t ts [Hn Ht] Hts IH]; [easy|].
  destruct ts as [|t' ts].
  - cbn [join_sp]. pose proof (split_go_word [] t [] Ht) as H0.
    rewrite !app_nil_r in H0. rewrite H0. cbn [split_go].
    destruct (rev t) eqn:E.
    + apply (f_equal (@length char)) in E. rewrite length_rev in E.
      now destruct t.
    + now rewrite <- E, rev_involutive.
  - change (join_sp (t :: t' :: ts)) with (t ++ SPACE :: join_sp (t' :: ts)).
    rewrite (split_go_word _ _ _ Ht), app_nil_r. cbn [split_go].
    rewrite (space_is_space db db_ok).
    destruct (rev t) eqn:E.
    + apply (f_equal (@length char)) in E. rewrite length_rev in E.
      now destruct t.
    + now rewrite <- E, rev_involutive, IH.
Qed.

Lemma word_not_space (db_ok : chardb_ok db) (w : pystr) :
  forallb (isword db) w = true ->
  forallb (fun c => negb (isspace db c)) w = true.
Proof.
  rewrite !forallb_forall. intros H c Hc. specialize (H c Hc).
  destruct (isspace db c) eqn:S; [|easy].
  apply (space_not_word db db_ok) in S. congruence.
Qed.

Lemma lower_join (db_ok : chardb_ok db) (ts : list pystr) :
  Forall (fun t => lower db t = t) ts -> lower db (join_sp ts) = join_sp ts.
Proof.
  assert (Hsp : lower db [SPACE] = [SPACE]).
  { apply (caseless_below_A db_ok). now repeat constructor. }
  induction 1 as [|t ts Ht Hts IH]; [easy|].
  destruct ts as [|t' ts]; [exact Ht|].
  change (join_sp (t :: t' :: ts)) with (t ++ [SPACE] ++ join_sp (t' :: ts)).
  now rewrite !lower_app, Ht, Hsp, IH.
Qed.

Lemma strip_punct_join (db_ok : chardb_ok db) (ts : list pystr) :
  Forall (fun t => forallb (isword db) t = true) ts ->
  strip_punct db (join_sp ts) = join_sp ts.
Proof.
  assert (Hw : forall t, forallb (isword db) t = true -> strip_punct db t = t).
  { induction t as [|c t IHt]; [easy|]. cbn [forallb]. rewrite andb_true_iff.
    intros [Hc Ht]. unfold strip_punct. cbn [map]. rewrite Hc. cbn [orb].
    f_equal. now apply IHt. }
  induction 1 as [|t ts Ht Hts IH]; [easy|].
  destruct ts as [|t' ts]; [now apply Hw|].
  change (join_sp (t :: t' :: ts)) with (t ++ [SPACE] ++ join_sp (t' :: ts)).
  unfold strip_punct in *. rewrite !map_app, (Hw t Ht), IH. cbn [map].
  now rewrite (space_is_space db db_ok), orb_true_r.
Qed.

(** The words that [extract_keywords] hands to the analyser are lower-case
    words. *)
Lemma split_words_wordlike (db_ok : chardb_ok db) (text w : pystr) :
  In w (split db (strip_punct db (lower db text))) -> wordlike db w.
Proof.
  intros H. apply split_go_words in H; [|constructor].
  destruct H as [Hn Hc]. split; [easy|].
  assert (Hch : forall c, In c w -> isword db c = true /\ tolower db c = [c]).
  { intros c Hin. destruct (Hc c Hin) as [[[]|Hs] Hsp].
    unfold strip_punct in Hs. apply in_map_iff in Hs.
    destruct Hs as (c0 & E & Hc0).
    destruct (isword db c0 || isspace db c0) eqn:B.
    - subst c0. rewrite Hsp, orb_false_r in B. split; [easy|].
      now apply (proj1 (Forall_forall _ _) (lower_all_fixed db_ok text)).
    - subst c. now rewrite (space_is_space db db_ok) in Hsp. }
  split.
  - apply forallb_forall. intros c Hin. now apply Hch.
  - apply lower_fixed_str, Forall_forall. intros c Hin. now apply Hch.
Qed.

(** C7, as the code has it.  [extract_keywords] hands every word to the
    analyser again; when every keyword of a text is a lower-case word that
    the analyser maps to itself, extracting the keywords of the
    space-joined keywords of the text gives the same keywords. *)
Theorem extract_keywords_idempotent (db_ok : chardb_ok db) (text : pystr) :
  Forall (fixed_keyword db morph) (extract_keywords db morph text) ->
  extract_keywords db morph (join_sp (extract_keywords db morph text))
  = extract_keywords db morph text.
Proof.
  intros Hfixed.
  set (ts := extract_keywords db morph text) in *.
  assert (Hts : Forall (fun t => wordlike db t /\ normalize_word morph t = t
                                 /\ mem t stop_words = false) ts).
  { apply Forall_forall. intros t Ht.
    destruct (proj1 (Forall_forall _ _) Hfixed t Ht) as [H1 H2].
    unfold ts, extract_keywords in Ht.
    apply filter_In in Ht. destruct Ht as [_ Hstop].
    repeat split; try easy; try apply H1.
    now apply negb_true_iff. }
  clearbody ts.
  unfold extract_keywords.
  rewrite (lower_join db_ok), (strip_punct_join db_ok), (split_join db_ok).
  - induction Hts as [|t ts' (Hw & Hn & Hs) _ IH]; [easy|].
    inversion Hfixed; subst.
    cbn [map filter]. rewrite Hn, Hs. cbn [negb]. f_equal. now apply IH.
  - eapply Forall_impl; [|exact Hts]. intros t ((Hn & Hw & _) & _).
    split; [easy | now apply word_not_space].
  - eapply Forall_impl; [|exact Hts]. now intros t ((_ & Hw & _) & _).
  - eapply Forall_impl; [|exact Hts]. now intros t ((_ & _ & Hl) & _).
Qed.

End Properties.

(** ** The database for ASCII and Russian satisfies the laws *)

Ltac split_if :=
  repeat match goal with
         | |- context [if ?b then _ else _] =>
           let E := fresh "E" in destruct b eqn:E
         end.

Ltac bool2prop :=
  rewrite ?orb_true_iff, ?andb_true_iff, ?orb_false_iff, ?andb_false_iff,
    ?N.leb_le, ?N.leb_gt, ?N.eqb_eq, ?N.eqb_neq in *.

Lemma ru_lower1_cases (c : char) :
  (65 <= c <= 90 /\ ru_lower1 c = c + 32)
  \/ (1040 <= c <= 1071 /\ ru_lower1 c = c + 32)
  \/ (1024 <= c <= 1039 /\ ru_lower1 c = c + 80)
  \/ ((c < 65 \/ 90 < c < 1024 \/ 1071 < c) /\ ru_lower1 c = c).
Proof. unfold ru_lower1. split_if; bool2prop; lia. Qed.

Lemma ru_upper1_cases (c : char) :
  (97 <= c <= 122 /\ ru_upper1 c = c - 32)
  \/ (1072 <= c <= 1103 /\ ru_upper1 c = c - 32)
  \/ (1104 <= c <= 1119 /\ ru_upper1 c = c - 80)
  \/ ((c < 97 \/ 122 < c < 1072 \/ 1119 < c) /\ ru_upper1 c = c).
Proof. unfold ru_upper1. split_if; bool2prop; lia. Qed.

Lemma ru_lower1_idem (c : char) : ru_lower1 (ru_lower1 c) = ru_lower1 c.
Proof.
  pose proof (ru_lower1_cases c). pose proof (ru_lower1_cases (ru_lower1 c)).
  lia.
Qed.

Lemma ru_low_caseless (c : char) :
  c < 65 -> ru_lower1 c = c /\ ru_upper1 c = c.
Proof.
  pose proof (ru_lower1_cases c). pose proof (ru_upper1_cases c). lia.
Qed.

Lemma ru_space_not_word (c : char) :
  ru_isspace c = true -> ru_isalpha c || ru_isdecimal c || (c =? 95) = false.
Proof.
  unfold ru_isspace, ru_isalpha, ru_isdecimal. intros H.
  bool2prop. lia.
Qed.

Lemma ru_ci_upper (l c : char) :
  1072 <= l <= 1103 -> (ru_lower1 c =? ru_lower1 l) = true ->
  ru_upper1 c = l - 32.
Proof.
  intros Hl H. apply N.eqb_eq in H.
  pose proof (ru_lower1_cases c). pose proof (ru_lower1_cases l).
  pose proof (ru_upper1_cases c). lia.
Qed.

Lemma ru_db_ok : chardb_ok ru_db.
Proof.
  constructor; cbn [tolower toupper totitle isspace isword isdecimal ci_eq ru_db].
  - intros c c' [<- | []]. now rewrite ru_lower1_idem.
  - easy.
  - apply ru_space_not_word.
  - intros c H. rewrite H. now rewrite orb_true_r.
  - reflexivity.
  - intros c H. destruct (ru_low_caseless c H) as [-> ->]. easy.
  - intros c H. unfold ru_isdecimal. bool2prop. lia.
  - intros l Hl. split; [apply N.eqb_refl|]. intros c H. f_equal.
    apply ru_ci_upper; [|easy].
    destruct Hl as [<- | [<- | [<- | []]]]; lia.
Qed.

(** ** Instances *)

Lemma teaching_shortcut_in_discipline_step_witness :
  exists pre word post d,
    extract_keywords ru_db morph_demo (lower ru_db (u "Кто ведет математику?"))
    = pre ++ word :: post
    /\ (forall w d', In w pre -> In d' discipline_kw -> contains d' w = false)
    /\ In d discipline_kw
    /\ contains d word = true
    /\ categorize_query ru_db morph_demo discipline_kw []
         (VStr (u "Кто ведет математику?"))
       = (discipline, [capitalize ru_db d]).
Proof.
  apply (teaching_shortcut_in_discipline_step ru_db morph_demo discipline_kw
           ru_db_ok (Permutation_refl _) [] (u "Кто ведет математику?")
           (u "математика") (u "математика")).
  - unfold reaches_discipline_step. repeat split; vm_compute; reflexivity.
  - vm_compute; reflexivity.
  - vm_compute; auto 20.
  - vm_compute; auto 20.
  - vm_compute; reflexivity.
Defined.

Lemma roster_match_dominates_navigation_witness :
  exists pre word post k full_name,
    extract_keywords ru_db morph_fail (lower ru_db (u "Где сейчас Иванова?"))
    = pre ++ word :: post
    /\ (forall w, In w pre ->
          find (fun k => contains k (lower ru_db w)) (map fst demo_roster) = None)
    /\ find (fun k => contains k (lower ru_db word)) (map fst demo_roster) = Some k
    /\ assoc k demo_roster = Some full_name
    /\ categorize_query ru_db morph_fail discipline_kw demo_roster
         (VStr (u "Где сейчас Иванова?")) = (teacher, [full_name])
    /\ fst (categorize_query ru_db morph_fail discipline_kw demo_roster
              (VStr (u "Где сейчас Иванова?"))) <> navigation.
Proof.
  apply (roster_match_dominates_navigation ru_db morph_fail discipline_kw
           ru_db_ok demo_teachers (u "Где сейчас Иванова?")
           (u "иванова") (u "иванов")).
  - vm_compute; reflexivity.
  - vm_compute; auto 20.
  - vm_compute; auto 20.
  - vm_compute; reflexivity.
Defined.

Lemma find_mdk_matches_module_codes_witness :
  mdk_code ru_db (u "МдК  03.01")
  /\ exists r, find_mdk ru_db (u "сдал МдК  03.01 вчера") = Some r.
Proof.
  assert (H : mdk_code ru_db (u "МдК  03.01")).
  { exists 1052, 1076, 1050, [SPACE; SPACE], 48, 51, 48, 49.
    repeat split; vm_compute; reflexivity. }
  split; [exact H|].
  apply (proj1 (find_mdk_matches_module_codes ru_db ru_db_ok
                  (u "сдал МдК  03.01 вчера"))
           (u "сдал ") (u "МдК  03.01") (u " вчера")).
  - vm_compute; reflexivity.
  - exact H.
Defined.

Lemma mdk_01_01_entity_witness :
  categorize_query ru_db morph_fail discipline_kw []
    (VStr (u "МдК 01.01 и мдк 02.02"))
  = (discipline, [u "МДК01.01"]).
Proof.
  apply (mdk_01_01_entity ru_db morph_fail discipline_kw ru_db_ok
           (Permutation_refl _) [] (u "МдК 01.01 и мдк 02.02")
           [] (u "МдК") [SPACE] (u " и мдк 02.02")).
  - vm_compute; reflexivity.
  - vm_compute; reflexivity.
  - vm_compute; reflexivity.
  - unfold reaches_discipline_step. repeat split; vm_compute; reflexivity.
  - left. vm_compute; reflexivity.
  - intros pre' m' post' _ _. apply Nat.le_0_l.
Defined.

Lemma extract_keywords_idempotent_witness :
  extract_keywords ru_db morph_demo
    (join_sp (extract_keywords ru_db morph_demo (u "Кто ведет математику?")))
  = extract_keywords ru_db morph_demo (u "Кто ведет математику?").
Proof.
  apply (extract_keywords_idempotent ru_db morph_demo ru_db_ok).
  replace (extract_keywords ru_db morph_demo (u "Кто ведет математику?"))
    with [u "кто"; u "вести"; u "математика"] by (vm_compute; reflexivity).
  repeat constructor; try discriminate; vm_compute; reflexivity.
Defined.

Lemma fuzzy_step_first_category_witness :
  categorize_query ru_db morph_fail discipline_kw [] (VStr (u "футбольный"))
  = (sport, [u "футбольный"])
  /\ categorize_query ru_db morph_fail discipline_kw [] (VStr (u "ал"))
     = (unknown, [u "ал"]).
Proof.
  split.
  - refine (proj1 (fuzzy_step_first_category ru_db morph_fail discipline_kw []
                     (u "футбольный") _)
              (firstn 5 categories) (sport, sport_kw) [(dormitory, dormitory_kw)]
              (u "футбольный") (u "футбол") _ _ _ _ _).
    + unfold reaches_fuzzy_step, reaches_discipline_step.
      repeat split; vm_compute; reflexivity.
    + vm_compute; reflexivity.
    + vm_compute; auto 20.
    + vm_compute; auto 20.
    + vm_compute; reflexivity.
    + vm_compute; reflexivity.
  - refine (proj2 (fuzzy_step_first_category ru_db morph_fail discipline_kw []
                     (u "ал") _) _).
    + unfold reaches_fuzzy_step, reaches_discipline_step.
      repeat split; vm_compute; reflexivity.
    + vm_compute; reflexivity.
Defined.

Lemma process_query_clarifies_witness :
  categorize_query ru_db morph_fail discipline_kw demo_roster (VStr (u "где?"))
  = (navigation, [])
  /\ process_query ru_db morph_fail discipline_kw demo_replies demo_roster
       (VStr (u "где?")) = Some CLARIFY.
Proof.
  apply (proj2 (process_query_clarifies ru_db morph_fail discipline_kw
                  demo_replies demo_roster)).
  - vm_compute; reflexivity.
  - vm_compute; reflexivity.
Defined.

Lemma later_record_overwrites_witness :
  map fst (fst (set_teacher_surnames ru_db demo_namesakes))
  = [u "иванов"; u "иванова"]
  /\ assoc (u "иванов") (fst (set_teacher_surnames ru_db demo_namesakes))
     = Some (u "ИВАНОВ Олег Ильич")
  /\ categorize_query ru_db morph_fail discipline_kw
       (fst (set_teacher_surnames ru_db demo_namesakes))
       (VStr (u "расписание Иванова"))
     = (teacher, [u "ИВАНОВ Олег Ильич"]).
Proof.
  destruct (later_record_overwrites ru_db morph_fail discipline_kw
              demo_namesakes) as (K & _ & _ & A & S).
  split; [|split].
  - rewrite K. vm_compute; reflexivity.
  - rewrite A. vm_compute; reflexivity.
  - apply (S (u "расписание Иванова") (teacher, [u "ИВАНОВ Олег Ильич"])).
    vm_compute; reflexivity.
Defined.

Lemma set_teacher_surnames_indexes_witness :
  In (u "петров") (map fst demo_roster).
Proof.
  apply (proj1 (set_teacher_surnames_indexes ru_db demo_teachers)).
  exists [VInt 2; VStr (u "Петров"); VStr (u "Пётр"); VNone].
  repeat split; vm_compute; auto 20.
Defined.

(** ** Where the statements of the specification fail *)

(** C1 as stated fails: the text holds the marker "ведет" and the token
    "математика" holds a course name, yet the roster step, which comes
    first, answers with the teacher. *)
Lemma roster_precedes_teaching_shortcut :
  existsb (fun m => contains m (lower ru_db (u "Иванов ведет математику")))
          teaching_markers = true
  /\ In (u "математика")
        (extract_keywords ru_db morph_demo (lower ru_db (u "Иванов ведет математику")))
  /\ In (u "математика") discipline_kw
  /\ contains (u "математика") (u "математика") = true
  /\ categorize_query ru_db morph_demo discipline_kw demo_roster
       (VStr (u "Иванов ведет математику"))
     = (teacher, [u "ИВАНОВ Олег Ильич"])
  /\ categorize_query ru_db morph_demo discipline_kw demo_roster
       (VStr (u "Иванов ведет математику"))
     <> (discipline, [u "Математика"]).
Proof.
  repeat split; try (vm_compute; auto 20); try (vm_compute; reflexivity).
  vm_compute. discriminate.
Qed.

(** C4 as stated fails: a record of exactly three fields (surname, given
    name, patronymic) is skipped. *)
Lemma three_field_record_not_indexed :
  (3 <= length [VStr (u "Сидоров"); VStr (u "Семён"); VStr (u "Ильич")])%nat
  /\ set_teacher_surnames ru_db
       [RSeq [VStr (u "Сидоров"); VStr (u "Семён"); VStr (u "Ильич")]]
     = ([],
        [(WARNING, InsufficientFields
                     (RSeq [VStr (u "Сидоров"); VStr (u "Семён"); VStr (u "Ильич")]));
         (INFO, Initialized 0)]).
Proof. split; [simpl; lia | vm_compute; reflexivity]. Qed.

(** C5 as stated fails: two letters, two digits, '.', two digits, and the
    extractor finds nothing. *)
Lemma two_letter_code_not_matched :
  u "оп01.02" = [1086; 1087] ++ [48; 49] ++ [46] ++ [48; 50]
  /\ forallb (isalpha ru_db) [1086; 1087] = true
  /\ forallb (isdecimal ru_db) [48; 49; 48; 50] = true
  /\ find_mdk ru_db (u "оп01.02") = None
  /\ find_discipline_in_text ru_db morph_fail discipline_kw (u "оп01.02") = None.
Proof. repeat split; vm_compute; reflexivity. Qed.

(** C6 as stated fails: the text holds "мдк 01.01" and gets as far as the
    discipline step, yet the entity is the code that comes first. *)
Lemma earlier_code_wins :
  contains (u "мдк 01.01") (u "мдк 02.02 и мдк 01.01") = true
  /\ reaches_discipline_step ru_db morph_fail [] (u "мдк 02.02 и мдк 01.01")
  /\ categorize_query ru_db morph_fail discipline_kw []
       (VStr (u "мдк 02.02 и мдк 01.01"))
     = (discipline, [u "МДК02.02"])
  /\ u "МДК02.02" <> u "МДК01.01".
Proof.
  unfold reaches_discipline_step.
  repeat split; try (vm_compute; reflexivity). vm_compute. discriminate.
Qed.

(** C7 as stated fails where a normal form is itself a form of another
    word: "залы" gives "зала", and "зала", handed to the analyser again,
    gives "зал". *)
Lemma renormalizing_changes_tokens :
  extract_keywords ru_db morph_zal (u "залы") = [u "зала"]
  /\ extract_keywords ru_db morph_zal
       (join_sp (extract_keywords ru_db morph_zal (u "залы")))
     = [u "зал"]
  /\ extract_keywords ru_db morph_zal
       (join_sp (extract_keywords ru_db morph_zal (u "залы")))
     <> extract_keywords ru_db morph_zal (u "залы").
Proof.
  repeat split; try (vm_compute; reflexivity). vm_compute. discriminate.
Qed.

(** C8 as stated fails: the token "футбольный" holds the trigger word
    "футбол" of the category 'sport', the query gets as far as the fuzzy
    step, and the answer is 'event', which comes earlier in the table and
    whose trigger word "концерт" is part of the other token. *)
Lemma earlier_category_wins :
  reaches_fuzzy_step ru_db morph_fail discipline_kw [] (u "футбольный концертный")
  /\ In (u "футбольный")
        (keywords_of ru_db morph_fail (lower ru_db (u "футбольный концертный")))
  /\ In (u "футбол") sport_kw
  /\ contains (u "футбол") (u "футбольный") = true
  /\ (4 <= length (u "футбол"))%nat
  /\ u "футбол" <> u "футбольный"
  /\ categorize_query ru_db morph_fail discipline_kw []
       (VStr (u "футбольный концертный"))
     = (event, [u "футбольный"; u "концертный"])
  /\ event <> sport.
Proof.
  unfold reaches_fuzzy_step, reaches_discipline_step.
  repeat split; try (vm_compute; auto 20); try (vm_compute; reflexivity);
    try (vm_compute; lia); vm_compute; discriminate.
Qed.

(** ** sanitize_input and split_long_message *)

Lemma filter_fixed {A} (f : A -> bool) (l : list A) :
  Forall (fun x => f x = true) l -> filter f l = l.
Proof.
  induction 1 as [|x l Hx _ IH]; [easy|]. simpl. now rewrite Hx, IH.
Qed.

Lemma sanitize_input_inv (text : pyval) (r : pystr) :
  sanitize_input text = Ok r ->
  r = [] \/ exists s n, (n <= 2000)%nat
                        /\ r = firstn n (filter (fun c => negb (is_control c)) s).
Proof.
  unfold sanitize_input. destruct (truthy text); cbn [negb].
  2:{ intros [= <-]. now left. }
  destruct text as [s|z|]; try easy. right.
  destruct (2000 <? length (filter _ s))%nat eqn:L; injection H as <-.
  - now exists s, 2000%nat.
  - apply Nat.ltb_ge in L. exists s, (length (filter (fun c => negb (is_control c)) s)).
    split; [easy | now rewrite firstn_all].
Qed.

Lemma firstn_incl {A} (n : nat) (l : list A) (x : A) :
  In x (firstn n l) -> In x l.
Proof.
  revert l; induction n as [|n IH]; intros [|a l]; simpl; try easy.
  intros [-> | H]; [now left | right; now apply IH].
Qed.

Lemma sanitized_clean (s : pystr) (n : nat) :
  Forall (fun c => is_control c = false)
         (firstn n (filter (fun c => negb (is_control c)) s)).
Proof.
  apply Forall_forall. intros c H. apply firstn_incl, filter_In in H.
  now apply negb_true_iff.
Qed.

(** X1.  Whatever [sanitize_input] returns holds no control character
    (U+0000 to U+001F, U+007F) and has 2000 characters at most. *)
Theorem sanitize_input_clean_bounded (text : pyval) (r : pystr) :
  sanitize_input text = Ok r ->
  (length r <= 2000)%nat /\ Forall (fun c => is_control c = false) r.
Proof.
  intros H. apply sanitize_input_inv in H.
  destruct H as [-> | (s & n & Hn & ->)].
  - split; [simpl; lia | constructor].
  - split; [|apply sanitized_clean].
    pose proof (firstn_le_length n (filter (fun c => negb (is_control c)) s)). lia.
Qed.

(** X2.  Sanitizing is idempotent: what [sanitize_input] returns, it
    returns unchanged when given it again. *)
Theorem sanitize_input_idempotent (text : pyval) (r : pystr) :
  sanitize_input text = Ok r -> sanitize_input (VStr r) = Ok r.
Proof.
  intros H. apply sanitize_input_inv in H.
  destruct H as [-> | (s & n & Hn & E)]; [easy|].
  destruct r as [|c r]; [easy|]. rewrite E.
  unfold sanitize_input. rewrite <- E at 1. cbn [truthy negb].
  rewrite filter_fixed.
  - replace (2000 <? _)%nat with false; [easy|].
    symmetry. apply Nat.ltb_ge.
    pose proof (firstn_le_length n (filter (fun c => negb (is_control c)) s)). lia.
  - eapply Forall_impl; [|apply sanitized_clean]. intros x Hx. now rewrite Hx.
Qed.

Lemma split_nl_nonempty (s : pystr) : split_nl s <> [].
Proof.
  induction s as [|c s IH]; simpl; [easy|].
  destruct (c =? NL); [easy|]. now destruct (split_nl s).
Qed.

Lemma split_nl_line (l : pystr) : ~ In NL l -> split_nl l = [l].
Proof.
  induction l as [|c l IH]; simpl; [easy|]. intros H.
  destruct (N.eqb_spec c NL) as [E | E]; [exfalso; apply H; now left|].
  rewrite IH; [easy|]. intros Hin. apply H. now right.
Qed.

Lemma split_nl_no_nl (s : pystr) : Forall (fun l => ~ In NL l) (split_nl s).
Proof.
  induction s as [|c s IH]; simpl.
  - constructor; [easy | constructor].
  - destruct (N.eqb_spec c NL) as [E | E].
    + constructor; [easy | exact IH].
    + destruct (split_nl s) as [|l ls]; [repeat constructor; simpl; intuition|].
      inversion IH as [|? ? Hl Hls]; subst. constructor; [|easy].
      simpl. intros [Hc | Hin]; [now apply E | now apply Hl].
Qed.

Lemma split_nl_app (a b : pystr) :
  split_nl (a ++ NL :: b) = split_nl a ++ split_nl b.
Proof.
  induction a as [|c a IH]; simpl; [easy|].
  destruct (c =? NL); [now rewrite IH|]. rewrite IH.
  pose proof (split_nl_nonempty a). now destruct (split_nl a).
Qed.

Lemma nonempty_lines_app (p q : list pystr) :
  nonempty_lines (p ++ q) = nonempty_lines p ++ nonempty_lines q.
Proof. unfold nonempty_lines. now rewrite flat_map_app, filter_app. Qed.

Lemma nonempty_lines_one (l : pystr) :
  ~ In NL l -> nonempty_lines [l] = filter (fun x => negb (str_eqb x [])) [l].
Proof.
  intros H. unfold nonempty_lines. cbn [flat_map].
  now rewrite app_nil_r, (split_nl_line l H).
Qed.

(** The loop keeps the lines that hold a character, in their order. *)
Lemma add_lines_keep (max_length : Z) (lines : list pystr)
    (parts : list pystr) (cur : pystr) :
  Forall (fun l => ~ In NL l) lines ->
  nonempty_lines (fst (fold_left (add_line max_length) lines (parts, cur))
                  ++ [snd (fold_left (add_line max_length) lines (parts, cur))])
  = nonempty_lines (parts ++ [cur])
    ++ filter (fun x => negb (str_eqb x [])) lines.
Proof.
  intros Hl. revert parts cur.
  induction Hl as [|line lines Hline _ IH]; intros parts cur.
  - cbn. now rewrite app_nil_r.
  - cbn [fold_left].
    destruct (add_line max_length (parts, cur) line) as [parts' cur'] eqn:E.
    unfold add_line in E. rewrite IH. clear IH.
    destruct (max_length <? _)%Z; [|destruct cur as [|c cur]];
      injection E as <- <-.
    + rewrite !nonempty_lines_app, (nonempty_lines_one line Hline).
      cbn [filter]. rewrite <- !app_assoc. f_equal. f_equal.
      now destruct (negb (str_eqb line [])).
    + rewrite !nonempty_lines_app, (nonempty_lines_one line Hline).
      cbn [filter]. rewrite <- !app_assoc. f_equal.
      change (nonempty_lines [[]]) with (@nil pystr). cbn [app].
      now destruct (negb (str_eqb line [])).
    + rewrite !nonempty_lines_app. rewrite <- !app_assoc. f_equal.
      unfold nonempty_lines at 1 2. cbn [flat_map]. rewrite !app_nil_r.
      change (c :: cur ++ NL :: line) with ((c :: cur) ++ NL :: line).
      rewrite split_nl_app, filter_app, (split_nl_line line Hline).
      cbn [filter]. rewrite <- app_assoc. f_equal.
      now destruct (negb (str_eqb line [])).
Qed.

(** X3.  [split_long_message] never cuts a line and loses no text: the
    lines of the parts that hold a character are, in order, the lines of
    the message that hold a character.  (Empty lines can be dropped.) *)
Theorem split_long_message_keeps_lines (message : pystr) (max_length : Z) :
  nonempty_lines (split_long_message message max_length)
  = nonempty_lines [message].
Proof.
  unfold split_long_message. destruct (_ <=? max_length)%Z; [easy|].
  pose proof (add_lines_keep max_length (split_nl message) [] []
                (split_nl_no_nl message)) as H.
  destruct (fold_left _ _ _) as [parts cur]. cbn [fst snd] in H.
  change (nonempty_lines ([] ++ [[]])) with (@nil pystr) in H. cbn [app] in H.
  assert (E : nonempty_lines [message]
              = filter (fun x => negb (str_eqb x [])) (split_nl message)).
  { unfold nonempty_lines. cbn [flat_map]. now rewrite app_nil_r. }
  rewrite E, <- H. destruct cur as [|c cur]; [|easy].
  rewrite nonempty_lines_app. change (nonempty_lines [[]]) with (@nil pystr).
  now rewrite app_nil_r.
Qed.

Lemma add_lines_bounded (max_length : Z) (lines : list pystr)
    (parts : list pystr) (cur : pystr) :
  Forall (fun l => (Z.of_nat (length l) <= max_length)%Z) lines ->
  Forall (fun l => (Z.of_nat (length l) <= max_length)%Z) (parts ++ [cur]) ->
  Forall (fun l => (Z.of_nat (length l) <= max_length)%Z)
         (fst (fold_left (add_line max_length) lines (parts, cur))
          ++ [snd (fold_left (add_line max_length) lines (parts, cur))]).
Proof.
  intros Hl. revert parts cur.
  induction Hl as [|line lines Hline _ IH]; intros parts cur Hst; [easy|].
  cbn [fold_left].
  destruct (add_line max_length (parts, cur) line) as [parts' cur'] eqn:E.
  unfold add_line in E.
  apply Forall_app in Hst. destruct Hst as [Hp Hc].
  apply Forall_inv in Hc. apply IH. clear IH.
  destruct (Z.ltb_spec max_length
              (Z.of_nat (length cur) + Z.of_nat (length line) + 1)) as [L | L];
    [|destruct cur as [|c cur]]; injection E as <- <-.
  - apply Forall_app. split; [|now constructor].
    apply Forall_app. split; [easy | now constructor].
  - apply Forall_app. split; [easy | now constructor].
  - apply Forall_app. split; [easy|].
    constructor; [|constructor].
    change (c :: cur ++ NL :: line) with ((c :: cur) ++ NL :: line).
    rewrite length_app. cbn [length] in *. lia.
Qed.

(** X4.  When no line of the message is longer than [max_length], no part
    is longer than [max_length]. *)
Theorem split_long_message_bounded (message : pystr) (max_length : Z) :
  Forall (fun l => (Z.of_nat (length l) <= max_length)%Z) (split_nl message) ->
  Forall (fun part => (Z.of_nat (length part) <= max_length)%Z)
         (split_long_message message max_length).
Proof.
  intros Hl. unfold split_long_message.
  destruct (Z.leb_spec (Z.of_nat (length message)) max_length) as [L | L].
  - now constructor.
  - assert (H0 : (0 <= max_length)%Z).
    { destruct (split_nl message) as [|l ls] eqn:E.
      - now apply split_nl_nonempty in E.
      - apply Forall_inv in Hl. lia. }
    pose proof (add_lines_bounded max_length (split_nl message) [] [] Hl) as H.
    destruct (fold_left _ _ _) as [parts cur].
    cbn [fst snd] in H.
    assert (Hall : Forall (fun l => (Z.of_nat (length l) <= max_length)%Z)
                          (parts ++ [cur])).
    { apply H. now constructor. }
    destruct cur as [|c cur]; [|easy].
    apply Forall_app in Hall. tauto.
Qed.

Lemma add_lines_head (max_length : Z) (lines : list pystr)
    (p : pystr) (parts : list pystr) (cur : pystr) :
  exists parts',
    fst (fold_left (add_line max_length) lines (p :: parts, cur)) = p :: parts'.
Proof.
  revert parts cur; induction lines as [|line lines IH]; intros parts cur.
  - now exists parts.
  - cbn [fold_left].
    destruct (add_line max_length (p :: parts, cur) line) as [parts' cur']
      eqn:E.
    unfold add_line in E.
    destruct (max_length <? _)%Z; [|destruct cur as [|c cur]];
      injection E as <- <-; apply IH.
Qed.

(** X5.  When the message is longer than [max_length] and its first line
    alone has [max_length] characters or more, the first part is the empty
    string. *)
Theorem split_long_message_empty_first_part
    (message first : pystr) (rest : list pystr) (max_length : Z) :
  (max_length < Z.of_nat (length message))%Z ->
  split_nl message = first :: rest ->
  (max_length <= Z.of_nat (length first))%Z ->
  exists parts, split_long_message message max_length = [] :: parts.
Proof.
  intros Hlong Hlines Hfirst. unfold split_long_message.
  replace (_ <=? max_length)%Z with false by (symmetry; apply Z.leb_gt; lia).
  rewrite Hlines. cbn [fold_left].
  assert (E0 : add_line max_length ([], []) first = ([[]], first)).
  { unfold add_line. cbn [length].
    now replace (max_length <? _)%Z with true
      by (symmetry; apply Z.ltb_lt; lia). }
  rewrite E0.
  destruct (add_lines_head max_length rest [] [] first) as (parts' & E).
  destruct (fold_left _ rest _) as [parts cur]. cbn [fst] in E. subst parts.
  destruct cur; [now exists parts' | now exists (parts' ++ [c :: cur])].
Qed.

(** ** More on the classifier *)

Section MoreProperties.

Set Default Proof Using "Type".

Variable db : chardb.
Variable morph : pystr -> option pystr.
Variable disc_iter : list pystr.

(** X6.  Every keyword that [extract_keywords] returns is the normal form
    of a non-empty lower-case word made of word characters, and is not a
    stop word. *)
Theorem extract_keywords_tokens (db_ok : chardb_ok db) (text t : pystr) :
  In t (extract_keywords db morph text) ->
  mem t stop_words = false
  /\ exists w, wordlike db w /\ t = normalize_word morph w.
Proof.
  unfold extract_keywords. intros H. apply filter_In in H.
  destruct H as [H Hstop]. apply negb_true_iff in Hstop. split; [easy|].
  apply in_map_iff in H. destruct H as (w & <- & Hw).
  exists w. split; [|easy]. now apply (split_words_wordlike db db_ok text).
Qed.

Lemma step_navigation_marker (text_lower : pystr) (keywords : list pystr) :
  existsb (fun m => contains m text_lower) locative_markers = true ->
  exists entities,
    step_navigation text_lower keywords = Some (navigation, entities)
    /\ (entities = keywords
        \/ exists tag, entities = [tag]
             /\ In tag (u "библиотека" :: u "столовая" :: u "лаборатория"
                          :: other_places)).
Proof.
  intros H. unfold step_navigation. rewrite H.
  destruct (contains (u "библиотек") text_lower).
  { eexists. split; [reflexivity|]. right. eexists. split; [reflexivity|].
    now left. }
  destruct (_ || _).
  { eexists. split; [reflexivity|]. right. eexists. split; [reflexivity|].
    right. now left. }
  destruct (_ || _).
  { eexists. split; [reflexivity|]. right. eexists. split; [reflexivity|].
    right. right. now left. }
  destruct (find _ other_places) as [loc|] eqn:F.
  - apply find_some in F. destruct F as [F _].
    eexists. split; [reflexivity|]. right. exists loc. split; [easy|].
    right. right. now right.
  - eexists. split; [reflexivity|]. now left.
Qed.

(** X7.  When no roster surname is found and the lower-cased text holds a
    locative marker, the answer is always 'navigation', whatever else the
    text says: the entity is one of the fixed location tags, or else the
    keywords of the query. *)
Theorem locative_marker_decides (surnames : roster) (text : pystr) :
  step_roster db surnames (keywords_of db morph (lower db text)) = None ->
  existsb (fun m => contains m (lower db text)) locative_markers = true ->
  exists entities,
    categorize_query db morph disc_iter surnames (VStr text)
    = (navigation, entities)
    /\ (entities = keywords_of db morph (lower db text)
        \/ exists tag, entities = [tag]
             /\ In tag (u "библиотека" :: u "столовая" :: u "лаборатория"
                          :: other_places)).
Proof.
  intros Hroster Hmark.
  destruct (step_navigation_marker (lower db text)
              (keywords_of db morph (lower db text)) Hmark)
    as (entities & Hnav & Hent).
  exists entities. split; [|exact Hent].
  unfold categorize_query, categorize_body. cbn [as_str bind try_except].
  cbv zeta. now rewrite Hroster, Hnav.
Qed.

Lemma contains_nil (s : pystr) : contains [] s = true.
Proof. now destruct s. Qed.

(** X8.  A roster record whose surname is the empty string makes every
    query that has a keyword a teacher query: the empty key is part of
    every word. *)
Theorem empty_surname_captures
    (teachers_list : list record) (fs : list pyval) (text : pystr) :
  In (RSeq fs) teachers_list ->
  (4 <= length fs)%nat ->
  surname_of db fs = [] ->
  keywords_of db morph (lower db text) <> [] ->
  exists full_name,
    categorize_query db morph disc_iter
      (fst (set_teacher_surnames db teachers_list)) (VStr text)
    = (teacher, [full_name]).
Proof.
  intros Hin Hlen Hsur Hkw.
  set (d := fst (set_teacher_surnames db teachers_list)).
  assert (Hkey : In [] (map fst d)).
  { apply index_keys. exists fs. now rewrite Hsur. }
  destruct (keywords_of db morph (lower db text)) as [|w rest] eqn:E; [easy|].
  destruct (roster_hit db d w) as [n|] eqn:R.
  - exists n. apply categorize_query_roster. rewrite E.
    unfold step_roster. cbn [find_map]. now rewrite R.
  - exfalso. apply roster_hit_None in R.
    pose proof (find_none _ _ R _ Hkey) as C. cbn beta in C.
    now rewrite contains_nil in C.
Qed.

Lemma common_disciplines_nonempty (d : pystr) :
  In d common_disciplines -> d <> [].
Proof.
  intros H ->. apply mem_In in H. now vm_compute in H.
Qed.

(** X9.  [find_discipline_in_text] never returns the empty string, so the
    test [if discipline:] of [categorize_query] never drops what it found:
    the discipline step answers with it. *)
Theorem found_discipline_is_returned
    (db_ok : chardb_ok db) (Hiter : iterates_disciplines disc_iter)
    (text d : pystr) :
  find_discipline_in_text db morph disc_iter text = Some d ->
  d <> []
  /\ step_discipline db morph disc_iter text = Some (discipline, [d]).
Proof.
  intros H.
  assert (Hd : d <> []).
  { unfold find_discipline_in_text in H.
    apply orelse_Some in H. destruct H as [H | [_ H]];
      [|apply orelse_Some in H; destruct H as [H | [_ H]];
        [|apply orelse_Some in H; destruct H as [H | [_ H]]]].
    - unfold teaching_shortcut in H. destruct (existsb _ _); [|easy].
      apply find_map_Some in H. destruct H as (_ & word & _ & _ & H & _).
      destruct (find _ disc_iter) as [d0|] eqn:F; [|easy].
      injection H as <-. apply find_some in F. destruct F as [F _].
      apply (capitalize_nonempty db db_ok), discipline_kw_nonempty.
      eapply Permutation_in; [exact Hiter | exact F].
    - unfold find_mdk in H.
      destruct (search db mdk_pattern text) as [m|] eqn:S; [|easy].
      injection H as <-. apply search_Some_inv in S.
      destruct S as (_ & rest & _ & Hm & _). apply rmatch_mdk_inv in Hm.
      destruct Hm as (_ & _ & Hcode & _).
      destruct (mdk_code_upper db db_ok _ Hcode) as (tail & ->). easy.
    - unfold find_common_full in H.
      destruct (find _ common_disciplines) as [d0|] eqn:F; [|easy].
      injection H as <-. apply find_some in F. destruct F as [F _].
      now apply (capitalize_nonempty db db_ok), common_disciplines_nonempty.
    - unfold find_common_partial in H. apply find_map_Some in H.
      destruct H as (pre & d0 & post & E & H & _).
      destruct (5 <? length d0)%nat; [|easy].
      destruct (find _ _); [|easy]. injection H as <-.
      apply (capitalize_nonempty db db_ok), common_disciplines_nonempty.
      rewrite E. apply in_elt. }
  split; [exact Hd|]. unfold step_discipline. rewrite H.
  now destruct d.
Qed.

End MoreProperties.

(** ** The formatters and the dispatcher *)

Lemma contains_trans (a b c : pystr) :
  contains a b = true -> contains b c = true -> contains a c = true.
Proof.
  rewrite !contains_spec. intros (p & q & ->) (p' & q' & ->).
  exists (p' ++ p), (q ++ q'). now rewrite <- !app_assoc.
Qed.

Lemma sports_hall_text_distinct (t : pystr) :
  In t [s393; s400; s413; s424; s437; s450; s462; s475; s506;
        s519 ++ s520 ++ s522 ++ s523 ++ s524 ++ s525 ++ s526 ++ s527 ++ s528
        ++ s529 ++ s530 ++ s532] ->
  t <> s490.
Proof.
  intros H E. subst t. vm_compute in H.
  repeat (destruct H as [H | H]; [discriminate H|]). exact H.
Qed.

Ltac in_list :=
  lazymatch goal with
  | |- In ?x (?y :: _) =>
    first [constr_eq x y; left; reflexivity | right; in_list]
  end.

(** Case analysis on the test of the outermost [if] of the goal. *)
Ltac next_test :=
  lazymatch goal with
  | |- context [if ?b then _ else _] =>
    lazymatch goal with
    | |- (if ?c then _ else _) = _ -> _ => destruct c
    | |- (if ?c then _ else _) <> _ => destruct c
    end
  end.

Ltac not_sports_hall H :=
  exfalso; revert H; apply sports_hall_text_distinct; in_list.

Section FormatterProperties.

Set Default Proof Using "Type".

Variable db : chardb.
Variable morph : pystr -> option pystr.
Variable disc_iter : list pystr.

(** X10.  The navigation formatter gives the sports-hall text only when
    the keyword string holds "спортивный" or "физкультура" and does not
    hold "зал"; a keyword string that holds "спортзал" never gets it,
    because the test for "зал" comes first. *)
Theorem sports_hall_text_never_for_sportzal
    (dbm : db_manager) (keywords : list pystr) :
  _process_navigation_query db dbm keywords = s490 ->
  contains (u "спортзал") (lower db (join_sp keywords)) = false
  /\ contains (u "зал") (lower db (join_sp keywords)) = false
  /\ contains (u "спортивный") (lower db (join_sp keywords))
     || contains (u "физкультура") (lower db (join_sp keywords)) = true.
Proof.
  unfold _process_navigation_query.
  destruct (get_navigation dbm); [intros H; not_sports_hall H|].
  cbv zeta. set (ks := lower db (join_sp keywords)).
  do 6 (next_test; [intros H; not_sports_hall H|]).
  destruct (contains (u "актовый") ks || contains (u "зал") ks) eqn:Hall;
    [intros H; not_sports_hall H|].
  apply orb_false_iff in Hall. destruct Hall as [_ Hzal].
  destruct (contains (u "спортзал") ks) eqn:S.
  { exfalso.
    assert (C : contains (u "зал") ks = true)
      by (apply (contains_trans _ (u "спортзал")); [reflexivity | exact S]).
    congruence. }
  cbn [orb].
  destruct (contains (u "спортивный") ks || contains (u "физкультура") ks);
    [intros _; repeat split; assumption|].
  next_test; intros H; not_sports_hall H.
Qed.

Lemma dispatch_navigation (dbm : db_manager) (keywords : list pystr) :
  dispatch (nlp_replies db dbm) navigation keywords
  = Ok (_process_navigation_query db dbm keywords).
Proof. reflexivity. Qed.

Lemma process_query_dispatch (replies : responders) (surnames : roster)
    (text category k : pystr) (keywords : list pystr) :
  startswith (u "/") text = false ->
  categorize_query db morph disc_iter surnames (VStr text)
  = (category, k :: keywords) ->
  process_query db morph disc_iter replies surnames (VStr text)
  = try_except
      (r <- dispatch replies category (k :: keywords) ;; Ok (Some r))
      (Some PROCESSING_ERROR).
Proof.
  intros Hcmd Hcat. unfold process_query. cbn [as_str bind].
  now rewrite Hcmd, Hcat.
Qed.

(** X11.  Whenever [categorize_query] answers with a location tag that
    lower-casing leaves as it is, and the navigation table is not empty,
    [process_query] gives the text of the table [location_answers] for
    that tag (for the tag "спортзал" that is the text of the assembly
    hall), unless the text starts with '/': then it gives [None], the
    text being left to the command handler. *)
Theorem location_tag_answer
    (dbm : db_manager) (surnames : roster) (text tag answer : pystr) :
  categorize_query db morph disc_iter surnames (VStr text)
  = (navigation, [tag]) ->
  assoc tag location_answers = Some answer ->
  lower db tag = tag ->
  get_navigation dbm <> [] ->
  process_query db morph disc_iter (nlp_replies db dbm) surnames (VStr text)
  = if startswith (u "/") text then None else Some answer.
Proof.
  intros Hcat Htag Hlow Hplaces.
  destruct (startswith (u "/") text) eqn:Hcmd.
  { unfold process_query. cbn [as_str bind]. now rewrite Hcmd. }
  rewrite (process_query_dispatch _ _ _ _ _ _ Hcmd Hcat), dispatch_navigation.
  cbn [bind try_except]. f_equal. unfold _process_navigation_query.
  destruct (get_navigation dbm); [easy|]. cbv zeta. cbn [join_sp].
  rewrite Hlow. clear Hlow Hcat Hcmd.
  unfold location_answers in Htag. cbn [assoc] in Htag.
  repeat match type of Htag with
         | (if str_eqb tag ?k then _ else _) = _ =>
           destruct (str_eqb tag k) eqn:E;
           [apply str_eqb_eq in E; subst tag; injection Htag as <-;
            vm_compute; reflexivity |]; clear E
         end.
  discriminate Htag.
Qed.

(** X12.  A query classified 'teacher' or 'discipline' with a non-empty
    entity list always gets the fixed notice that the search is not
    available: the name or course that was recognised is not used. *)
Theorem teacher_and_discipline_get_notice
    (dbm : db_manager) (surnames : roster) (text category : pystr)
    (keywords : list pystr) :
  startswith (u "/") text = false ->
  categorize_query db morph disc_iter surnames (VStr text)
  = (category, keywords) ->
  keywords <> [] ->
  category = teacher \/ category = discipline ->
  process_query db morph disc_iter (nlp_replies db dbm) surnames (VStr text)
  = Some (if str_eqb category teacher then s321 else s331).
Proof.
  intros Hcmd Hcat Hkw Hc. destruct keywords as [|k keywords]; [easy|].
  rewrite (process_query_dispatch _ _ _ _ _ _ Hcmd Hcat).
  destruct Hc as [-> | ->]; vm_compute; reflexivity.
Qed.

Lemma app_nonempty (a b : pystr) : a <> [] -> a ++ b <> [].
Proof. now destruct a. Qed.

Lemma reply_text_nonempty (t : pystr) :
  In t [s321; s331; s340; s342; s364; s366; s393; s400; s413; s424; s437;
        s450; s462; s475; s490; s506; s519; s540; s542; s565; s567;
        CLARIFY; NOT_UNDERSTOOD] ->
  t <> [].
Proof.
  intros H E. subst t. vm_compute in H.
  repeat (destruct H as [H | H]; [discriminate H|]). exact H.
Qed.

Ltac text_nonempty :=
  first [apply reply_text_nonempty; in_list
        | apply app_nonempty, reply_text_nonempty; in_list].

Lemma dispatch_nonempty (dbm : db_manager) (category : pystr)
    (keywords : list pystr) :
  exists r, dispatch (nlp_replies db dbm) category keywords = Ok r /\ r <> [].
Proof.
  unfold dispatch, nlp_replies, _process_teacher_query,
    _process_discipline_query.
  cbn [process_teacher_query process_discipline_query process_sport_query
       process_document_query process_navigation_query process_event_query
       process_dormitory_query].
  destruct (str_eqb category teacher).
  { eexists. split; [reflexivity | text_nonempty]. }
  destruct (str_eqb category discipline).
  { eexists. split; [reflexivity | text_nonempty]. }
  destruct (str_eqb category sport).
  { eexists. split; [reflexivity|]. unfold _process_sport_query.
    destruct (get_sections dbm); text_nonempty. }
  destruct (str_eqb category document).
  { eexists. split; [reflexivity|]. unfold _process_document_query.
    destruct (get_documents dbm); text_nonempty. }
  destruct (str_eqb category navigation).
  { eexists. split; [reflexivity|]. unfold _process_navigation_query.
    destruct (get_navigation dbm); [text_nonempty|]. cbv zeta.
    repeat (next_test; [text_nonempty|]). text_nonempty. }
  destruct (str_eqb category event).
  { eexists. split; [reflexivity|]. unfold _process_event_query.
    destruct (get_events dbm); text_nonempty. }
  destruct (str_eqb category dormitory).
  { eexists. split; [reflexivity|]. unfold _process_dormitory_query.
    destruct (get_dormitories dbm); text_nonempty. }
  eexists. split; [reflexivity | text_nonempty].
Qed.

(** X13.  For a string, [process_query] returns [None] exactly when the
    text starts with '/'; every other text gets a reply that is not the
    empty string. *)
Theorem process_query_reply
    (dbm : db_manager) (surnames : roster) (text : pystr) :
  match process_query db morph disc_iter (nlp_replies db dbm) surnames
          (VStr text) with
  | None => startswith (u "/") text = true
  | Some r => startswith (u "/") text = false /\ r <> []
  end.
Proof.
  unfold process_query. cbn [as_str bind].
  destruct (startswith (u "/") text); [reflexivity|].
  destruct (categorize_query db morph disc_iter surnames (VStr text))
    as [category keywords].
  destruct keywords as [|k keywords].
  - cbn [try_except]. split; [reflexivity | text_nonempty].
  - destruct (dispatch_nonempty dbm category (k :: keywords)) as (r & -> & Hr).
    cbn [bind try_except]. split; [reflexivity | exact Hr].
Qed.

End FormatterProperties.

(** ** Joining the parts of a message again *)

Lemma join_nl_snoc (ls : list pystr) (l x : pystr) :
  join_nl ((l :: ls) ++ [x]) = join_nl (l :: ls) ++ NL :: x.
Proof.
  revert l; induction ls as [|l' ls IH]; intros l; [easy|].
  change (join_nl ((l :: l' :: ls) ++ [x]))
    with (l ++ NL :: join_nl ((l' :: ls) ++ [x])).
  rewrite IH. change (join_nl (l :: l' :: ls)) with (l ++ NL :: join_nl (l' :: ls)).
  now rewrite <- app_assoc.
Qed.

Lemma join_nl_snoc_ne (ps : list pystr) (x : pystr) :
  ps <> [] -> join_nl (ps ++ [x]) = join_nl ps ++ NL :: x.
Proof. destruct ps as [|l ls]; [easy | intros _; apply join_nl_snoc]. Qed.

Lemma join_nl_last_app (ps : list pystr) (c x : pystr) :
  join_nl (ps ++ [c ++ x]) = join_nl (ps ++ [c]) ++ x.
Proof.
  induction ps as [|p ps IH]; [easy|].
  destruct ps as [|p' ps].
  - cbn. now rewrite <- app_assoc.
  - change (join_nl ((p :: p' :: ps) ++ [c ++ x]))
      with (p ++ NL :: join_nl ((p' :: ps) ++ [c ++ x])).
    rewrite IH.
    change (join_nl ((p :: p' :: ps) ++ [c]))
      with (p ++ NL :: join_nl ((p' :: ps) ++ [c])).
    now rewrite <- app_assoc.
Qed.

Lemma join_split_nl (s : pystr) : join_nl (split_nl s) = s.
Proof.
  induction s as [|c s IH]; [easy|]. cbn [split_nl].
  destruct (N.eqb_spec c NL) as [-> | E].
  - pose proof (split_nl_nonempty s).
    destruct (split_nl s) as [|l ls] eqn:S; [easy|].
    change (join_nl ([] :: l :: ls)) with (NL :: join_nl (l :: ls)).
    now rewrite IH.
  - pose proof (split_nl_nonempty s).
    destruct (split_nl s) as [|l ls] eqn:S; [easy|].
    destruct ls as [|l' ls]; cbn in IH |- *; now rewrite <- IH.
Qed.

Lemma join_nl_cons_flat (l : pystr) (rest : list pystr) :
  join_nl (l :: rest) = l ++ flat_map (fun x => NL :: x) rest.
Proof.
  revert l; induction rest as [|l' rest IH]; intros l.
  - cbn. now rewrite app_nil_r.
  - change (join_nl (l :: l' :: rest)) with (l ++ NL :: join_nl (l' :: rest)).
    now rewrite IH.
Qed.

(** The loop, once the current part holds something, on lines that are
    not empty and shorter than [max_length]. *)
Lemma add_lines_join (max_length : Z) (lines : list pystr)
    (parts : list pystr) (c : char) (cur : pystr) :
  Forall (fun l => l <> [] /\ (Z.of_nat (length l) < max_length)%Z) lines ->
  Forall (fun p => p <> []) parts ->
  exists parts' c' cur',
    fold_left (add_line max_length) lines (parts, c :: cur)
    = (parts', c' :: cur')
    /\ Forall (fun p => p <> []) parts'
    /\ join_nl (parts' ++ [c' :: cur'])
       = join_nl (parts ++ [c :: cur]) ++ flat_map (fun l => NL :: l) lines.
Proof.
  intros Hl. revert parts c cur.
  induction Hl as [|line lines [Hne Hlen] _ IH]; intros parts c cur Hp.
  - exists parts, c, cur. cbn. now rewrite app_nil_r.
  - cbn [fold_left flat_map].
    destruct line as [|x line]; [easy|].
    destruct (add_line max_length (parts, c :: cur) (x :: line))
      as [parts0 cur0] eqn:E0.
    unfold add_line in E0.
    destruct (max_length <? _)%Z; injection E0 as <- <-.
    + destruct (IH (parts ++ [c :: cur]) x line)
        as (parts' & c' & cur' & E & Hp' & J).
      { apply Forall_app. split; [easy | now repeat constructor]. }
      exists parts', c', cur'. repeat split; try easy.
      rewrite J, join_nl_snoc_ne, <- app_assoc; [easy|].
      now destruct parts.
    + destruct (IH parts c (cur ++ NL :: x :: line))
        as (parts' & c' & cur' & E & Hp' & J); [easy|].
      exists parts', c', cur'. repeat split; try easy.
      rewrite J.
      change (c :: cur ++ NL :: x :: line) with ((c :: cur) ++ NL :: x :: line).
      now rewrite join_nl_last_app, <- app_assoc.
Qed.

(** X14.  When every line of the message holds a character and is shorter
    than [max_length], no part is the empty string and joining the parts
    with a newline gives the message back. *)
Theorem split_long_message_round_trip (message : pystr) (max_length : Z) :
  Forall (fun l => l <> [] /\ (Z.of_nat (length l) < max_length)%Z)
         (split_nl message) ->
  Forall (fun part => part <> []) (split_long_message message max_length)
  /\ join_nl (split_long_message message max_length) = message.
Proof.
  intros Hl. unfold split_long_message.
  destruct (split_nl message) as [|first rest] eqn:S.
  { now apply split_nl_nonempty in S. }
  inversion Hl as [|? ? [Hne Hlen] Hrest]; subst.
  destruct (_ <=? max_length)%Z.
  - split; [|easy]. repeat constructor. intros ->.
    now rewrite (split_nl_line []) in S; [injection S as <- | easy].
  - cbn [fold_left]. destruct first as [|c first]; [easy|].
    assert (E0 : add_line max_length ([], []) (c :: first) = ([], c :: first)).
    { unfold add_line. cbn [length].
      replace (_ <? _)%Z with false; [easy|].
      symmetry. apply Z.ltb_ge. cbn [length] in Hlen. lia. }
    rewrite E0.
    destruct (add_lines_join max_length rest [] c first Hrest (Forall_nil _))
      as (parts' & c' & cur' & -> & Hp & J).
    split.
    + apply Forall_app. split; [easy | now repeat constructor].
    + eapply eq_trans; [exact J|]. cbn [app join_nl].
      rewrite <- (join_split_nl message), S. symmetry.
      apply join_nl_cons_flat.
Qed.

(** ** The exact keyword step *)

Section ExactStep.

Set Default Proof Using "Type".

Variable db : chardb.
Variable morph : pystr -> option pystr.
Variable disc_iter : list pystr.

(** X15.  For a query that gets as far as the exact keyword step: when a
    keyword is a trigger word of a category and no category earlier in the
    table has a keyword of the query among its trigger words, the answer is
    that category with the keywords.  A trigger word that several
    categories share therefore always goes to the first of them. *)
Theorem exact_step_first_category
    (surnames : roster) (text token : pystr)
    (earlier later : list (pystr * list pystr)) (cat : pystr * list pystr) :
  reaches_exact_step db morph disc_iter surnames text ->
  categories = earlier ++ cat :: later ->
  In token (keywords_of db morph (lower db text)) ->
  In token (snd cat) ->
  forallb (fun c => negb (category_has_keyword
                            (keywords_of db morph (lower db text)) c))
          earlier = true ->
  categorize_query db morph disc_iter surnames (VStr text)
  = (fst cat, keywords_of db morph (lower db text)).
Proof.
  intros (Hreach & H5 & H6) Hcat Htok Hmem Hearlier.
  rewrite (categorize_query_discipline db morph disc_iter surnames text Hreach).
  rewrite H5, H6. cbn [orelse]. unfold step_exact.
  replace (find _ categories) with (Some cat); [easy|].
  symmetry. apply find_Some_split. exists earlier, later.
  repeat split; try easy.
  - apply existsb_exists. exists token. split; [easy | now apply mem_In].
  - intros c Hc. rewrite forallb_forall in Hearlier.
    apply Hearlier in Hc. now apply negb_true_iff in Hc.
Qed.

End ExactStep.

(** ** format_teacher_disciplines *)

Section FormatDisciplinesProperties.

Set Default Proof Using "Type".

Variable db : chardb.
Variable islower : char -> bool.
Variable decode_utf8 : list N -> option pystr.
Variable decode_cp1251 : list N -> option pystr.

Lemma format_items_bullets (raw : list pystr) :
  Forall (fun item => exists rest, item = u "• " ++ rest)
         (format_items db islower raw).
Proof.
  unfold format_items. apply Forall_forall. intros item H.
  apply in_flat_map in H. destruct H as (disc & _ & H).
  destruct (strip db disc) as [|c d]; [easy|].
  destruct H as [<- | []]. unfold bullet_item. now eexists.
Qed.

Lemma join_nl_head (item rest : pystr) (items : list pystr) :
  item = u "• " ++ rest ->
  exists rest', join_nl (item :: items) = u "• " ++ rest'.
Proof.
  intros ->. destruct items as [|i items].
  - now exists rest.
  - exists (rest ++ NL :: join_nl (i :: items)).
    change (join_nl ((u "• " ++ rest) :: i :: items))
      with ((u "• " ++ rest) ++ NL :: join_nl (i :: items)).
    now rewrite <- app_assoc.
Qed.

Lemma formatted_or_placeholder (raw : list pystr) :
  match format_items db islower raw with
  | [] => NO_DISCIPLINES
  | formatted => join_nl formatted
  end = NO_DISCIPLINES
  \/ exists rest,
      match format_items db islower raw with
      | [] => NO_DISCIPLINES
      | formatted => join_nl formatted
      end = u "• " ++ rest.
Proof.
  pose proof (format_items_bullets raw) as H.
  destruct (format_items db islower raw) as [|item items]; [now left|].
  right. apply Forall_inv in H. destruct H as (rest & H).
  now apply (join_nl_head item rest).
Qed.

(** X16.  Whatever the argument (list, string, bytes or None), the result
    of [format_teacher_disciplines] is never the empty string: it is the
    text "Дисциплины не указаны" or it starts with the bullet "• ". *)
Theorem format_teacher_disciplines_shape (disciplines_list : disciplines_arg) :
  format_teacher_disciplines db islower decode_utf8 decode_cp1251
    disciplines_list = NO_DISCIPLINES
  \/ exists rest,
      format_teacher_disciplines db islower decode_utf8 decode_cp1251
        disciplines_list = u "• " ++ rest.
Proof.
  assert (S : forall s,
    format_disciplines_str db islower s = NO_DISCIPLINES
    \/ exists rest, format_disciplines_str db islower s = u "• " ++ rest).
  { intros s. unfold format_disciplines_str. cbv zeta.
    destruct (strip db _) as [|c d]; [now left|].
    apply formatted_or_placeholder. }
  destruct disciplines_list as [[|i items]|[|c s]|[|b bs]|]; try (now left);
    cbn [format_teacher_disciplines]; try apply S.
  apply formatted_or_placeholder.
Qed.

Lemma format_items_nil (raw : list pystr) :
  format_items db islower raw = [] <->
  forall disc, In disc raw -> strip db disc = [].
Proof.
  unfold format_items. induction raw as [|d raw IH]; cbn [flat_map].
  - split; [now intros _ disc [] | easy].
  - destruct (strip db d) as [|c s] eqn:E; cbn [app].
    + rewrite IH. split.
      * intros H disc [<- | Hin]; [easy | now apply H].
      * intros H disc Hin. apply H. now right.
    + split; [easy|]. intros H. specialize (H d (or_introl eq_refl)).
      congruence.
Qed.

(** X17.  For a list, the result is "Дисциплины не указаны" exactly when
    no element is a string that holds a character other than white space
    (elements that are not strings are passed over). *)
Theorem format_teacher_disciplines_list_placeholder (items : list pyval) :
  format_teacher_disciplines db islower decode_utf8 decode_cp1251 (DList items)
  = NO_DISCIPLINES
  <-> forall s, In (VStr s) items -> strip db s = [].
Proof.
  destruct items as [|i items].
  { split; [now intros _ s [] | easy]. }
  cbn [format_teacher_disciplines].
  set (strings := flat_map _ (i :: items)).
  assert (Hs : (forall disc, In disc strings -> strip db disc = [])
               <-> forall s, In (VStr s) (i :: items) -> strip db s = []).
  { unfold strings. split.
    - intros H s Hin. destruct s as [|c s]; [easy|]. apply H.
      apply in_flat_map. exists (VStr (c :: s)). split; [easy | now left].
    - intros H disc Hin. apply in_flat_map in Hin.
      destruct Hin as (v & Hv & Hd). destruct v as [[|c s]| |]; try easy.
      destruct Hd as [<- | []]. now apply H. }
  rewrite <- Hs, <- format_items_nil.
  pose proof (format_items_bullets strings) as Hb.
  destruct (format_items db islower strings) as [|item rest]; [easy|].
  split; [|easy]. intros E. exfalso. apply Forall_inv in Hb.
  destruct Hb as (r & Hr).
  destruct (join_nl_head item r rest Hr) as (r' & E').
  rewrite E' in E. now vm_compute in E.
Qed.

End FormatDisciplinesProperties.

(** ** Instances of the further properties *)

Ltac compute_lines :=
  match goal with
  | |- context [split_nl ?m] =>
    let l := eval vm_compute in (split_nl m) in
    change (split_nl m) with l
  end.

Lemma sanitize_input_clean_bounded_witness :
  (length (u "привет") <= 2000)%nat
  /\ Forall (fun c => is_control c = false) (u "привет").
Proof.
  apply (sanitize_input_clean_bounded (VStr (u "при" ++ [9; 27] ++ u "вет"))).
  vm_compute; reflexivity.
Defined.

Lemma sanitize_input_idempotent_witness :
  sanitize_input (VStr (u "привет")) = Ok (u "привет").
Proof.
  apply (sanitize_input_idempotent (VStr (u "при" ++ [9; 27] ++ u "вет"))).
  vm_compute; reflexivity.
Defined.

Lemma split_long_message_bounded_witness :
  Forall (fun part => (Z.of_nat (length part) <= 6)%Z)
         (split_long_message (u "ab" ++ NL :: u "cde" ++ NL :: u "fgh") 6).
Proof.
  apply split_long_message_bounded. compute_lines.
  repeat constructor; now vm_compute.
Defined.

Lemma split_long_message_empty_first_part_witness :
  exists parts,
    split_long_message (u "abcdef" ++ NL :: u "xy") 3 = [] :: parts.
Proof.
  apply (split_long_message_empty_first_part _ (u "abcdef") [u "xy"]).
  - now vm_compute.
  - vm_compute; reflexivity.
  - now vm_compute.
Defined.

Lemma split_long_message_round_trip_witness :
  Forall (fun part => part <> [])
         (split_long_message (u "ab" ++ NL :: u "cde" ++ NL :: u "fgh") 7)
  /\ join_nl (split_long_message (u "ab" ++ NL :: u "cde" ++ NL :: u "fgh") 7)
     = u "ab" ++ NL :: u "cde" ++ NL :: u "fgh".
Proof.
  apply split_long_message_round_trip. compute_lines.
  repeat constructor; now vm_compute.
Defined.

Lemma extract_keywords_tokens_witness :
  mem (u "библиотека") stop_words = false
  /\ exists w, wordlike ru_db w /\ u "библиотека" = normalize_word morph_fail w.
Proof.
  apply (extract_keywords_tokens ru_db morph_fail ru_db_ok
           (u "Где находится библиотека?")).
  vm_compute. right. left. reflexivity.
Defined.

Lemma locative_marker_decides_witness :
  exists entities,
    categorize_query ru_db morph_fail discipline_kw []
      (VStr (u "Где преподаватель информатики?")) = (navigation, entities)
    /\ (entities = keywords_of ru_db morph_fail
                     (lower ru_db (u "Где преподаватель информатики?"))
        \/ exists tag, entities = [tag]
             /\ In tag (u "библиотека" :: u "столовая" :: u "лаборатория"
                          :: other_places)).
Proof.
  apply locative_marker_decides; vm_compute; reflexivity.
Defined.

Lemma empty_surname_captures_witness :
  exists full_name,
    categorize_query ru_db morph_fail discipline_kw
      (fst (set_teacher_surnames ru_db
              [RSeq [VInt 9; VStr []; VStr (u "Иван"); VStr (u "Ильич")]]))
      (VStr (u "расписание звонков"))
    = (teacher, [full_name]).
Proof.
  apply (empty_surname_captures ru_db morph_fail discipline_kw _
           [VInt 9; VStr []; VStr (u "Иван"); VStr (u "Ильич")]).
  - now left.
  - simpl. lia.
  - reflexivity.
  - now vm_compute.
Defined.

Lemma found_discipline_is_returned_witness :
  u "Русский язык" <> []
  /\ step_discipline ru_db morph_fail discipline_kw (u "сдать русский язык")
     = Some (discipline, [u "Русский язык"]).
Proof.
  apply (found_discipline_is_returned ru_db morph_fail discipline_kw ru_db_ok
           (Permutation_refl _)).
  vm_compute; reflexivity.
Defined.

Lemma sports_hall_text_never_for_sportzal_witness :
  contains (u "спортзал") (lower ru_db (join_sp [u "спортивный"; u "комплекс"]))
  = false
  /\ contains (u "зал") (lower ru_db (join_sp [u "спортивный"; u "комплекс"]))
     = false
  /\ contains (u "спортивный")
       (lower ru_db (join_sp [u "спортивный"; u "комплекс"]))
     || contains (u "физкультура")
          (lower ru_db (join_sp [u "спортивный"; u "комплекс"])) = true.
Proof.
  apply (sports_hall_text_never_for_sportzal ru_db demo_dbm).
  vm_compute; reflexivity.
Defined.

Lemma location_tag_answer_witness :
  process_query ru_db morph_fail discipline_kw (nlp_replies ru_db demo_dbm) []
    (VStr (u "где спортзал?")) = Some s475
  /\ process_query ru_db morph_fail discipline_kw (nlp_replies ru_db demo_dbm)
       [] (VStr (u "/где библиотека?")) = None.
Proof.
  split.
  - apply (location_tag_answer ru_db morph_fail discipline_kw demo_dbm []
             (u "где спортзал?") (u "спортзал") s475).
    + vm_compute; reflexivity.
    + vm_compute; reflexivity.
    + vm_compute; reflexivity.
    + discriminate.
  - apply (location_tag_answer ru_db morph_fail discipline_kw demo_dbm []
             (u "/где библиотека?") (u "библиотека") s400).
    + vm_compute; reflexivity.
    + vm_compute; reflexivity.
    + vm_compute; reflexivity.
    + discriminate.
Defined.

Lemma teacher_and_discipline_get_notice_witness :
  process_query ru_db morph_fail discipline_kw (nlp_replies ru_db demo_dbm)
    demo_roster (VStr (u "расписание иванова"))
  = Some (if str_eqb teacher teacher then s321 else s331).
Proof.
  apply (teacher_and_discipline_get_notice ru_db morph_fail discipline_kw
           demo_dbm demo_roster (u "расписание иванова") teacher
           [u "ИВАНОВ Олег Ильич"]).
  - vm_compute; reflexivity.
  - vm_compute; reflexivity.
  - discriminate.
  - now left.
Defined.

Lemma exact_step_first_category_witness :
  categorize_query ru_db morph_fail discipline_kw [] (VStr (u "семинар"))
  = (discipline, keywords_of ru_db morph_fail (lower ru_db (u "семинар"))).
Proof.
  apply (exact_step_first_category ru_db morph_fail discipline_kw []
           (u "семинар") (u "семинар") [(teacher, teacher_kw)]
           (skipn 2 categories) (discipline, discipline_kw)).
  - unfold reaches_exact_step, reaches_discipline_step.
    repeat split; vm_compute; reflexivity.
  - reflexivity.
  - vm_compute. left. reflexivity.
  - vm_compute. do 21 right. left. reflexivity.
  - vm_compute; reflexivity.
Defined.
